(** * jschon: a shallow embedding of the JSON Schema evaluation core

    The development follows the Python sources file by file:

    - [jschon/jsonpointer.py]          -> Module [JSONPointer]
    - [jschon/output.py]               -> Module [OutputFormatter]
    - [jschon/vocabulary/core.py]      -> Modules [SchemaKeyword], [VocabularyKeyword],
                                          [IdKeyword], [DynamicRefKeyword]
    - [jschon/keywords/validation.py]  -> Modules [TypeKeyword], [MultipleOfKeyword],
                                          [MaximumKeyword] ..., [UniqueItemsKeyword]

    Python exceptions are values of [exn] carried by the [result] monad;
    dicts that are iterated in insertion order are association lists;
    the catalogue registries and [set]s are stdpp finite maps and sets.

    Part I holds the embedding, Part II the lemmas and theorems. *)

From Stdlib Require Import ZArith QArith Qpower Ascii String List Bool Lia.
From stdpp Require Import base option list gmap strings.

Local Open Scope Z_scope.
#[local] Set Warnings "-register-all".

(* ===================================================================== *)
(** * Part I. The embedding                                               *)
(* ===================================================================== *)

(** ** Exceptions *)

(** Modelled from the spec: the exception classes of the missing
    [jschon/exceptions.py] that the sources import and raise;
    [SchemaStructureError] in the spec is [JSONSchemaError] in the
    sources.  [AttributeError] is Python's. *)
Inductive exn : Type :=
| JSONPointerError
| JSONSchemaError
| URIError
| CatalogueError
| AttributeError.

#[global] Instance exn_eq_dec : EqDecision exn.
Proof. solve_decision. Defined.

Inductive result (A : Type) : Type :=
| Return (a : A)
| Raise (e : exn).
Arguments Return {A} a.
Arguments Raise {A} e.

Definition bind {A B : Type} (m : result A) (k : A -> result B) : result B :=
  match m with
  | Return a => k a
  | Raise e => Raise e
  end.

(** [try: m except e => h] runs the handler when [m] raises exactly [e]. *)
Definition try_except {A : Type} (m : result A) (e : exn) (h : result A) : result A :=
  match m with
  | Return a => Return a
  | Raise e' => if decide (e' = e) then h else Raise e'
  end.

Definition raised {A : Type} (m : result A) : bool :=
  match m with Return _ => false | Raise _ => true end.

(** ** Python [str] methods used by the sources

    A [str] is modelled by [string]; its characters are [ascii]. *)

Module str.

Fixpoint startswith (s prefix : string) {struct prefix} : bool :=
  match prefix with
  | EmptyString => true
  | String p prefix' =>
      match s with
      | EmptyString => false
      | String c s' => Ascii.eqb c p && startswith s' prefix'
      end
  end.

(** [s.replace(old, new)] for a non-empty [old]: left to right, the
    occurrences do not overlap.  [skip] counts the characters of a
    matched occurrence that are still to be dropped. *)
Fixpoint replace_from (old new : string) (skip : nat) (s : string) : string :=
  match s with
  | EmptyString => EmptyString
  | String c s' =>
      match skip with
      | S k => replace_from old new k s'
      | O =>
          if startswith s old
          then new +:+ replace_from old new (String.length old - 1) s'
          else String c (replace_from old new 0 s')
      end
  end.

Definition replace (s old new : string) : string := replace_from old new 0 s.

(** [s.split(sep)] for a one-character separator. *)
Fixpoint split (s : string) (sep : ascii) : list string :=
  match s with
  | EmptyString => [EmptyString]
  | String c s' =>
      if Ascii.eqb c sep then EmptyString :: split s' sep
      else match split s' sep with
           | tok :: toks => String c tok :: toks
           | [] => [String c EmptyString]
           end
  end.

(** ['' .join(parts)] *)
Definition join (parts : list string) : string :=
  fold_right String.append EmptyString parts.

(** [c in s] for a character [c] *)
Fixpoint contains (s : string) (c : ascii) : bool :=
  match s with
  | EmptyString => false
  | String c' s' => Ascii.eqb c' c || contains s' c
  end.

(** [int(s)] for a string of ASCII decimal digits. *)
Definition digit (c : ascii) : N := (N_of_ascii c - 48)%N.

Fixpoint int_from (acc : N) (s : string) : N :=
  match s with
  | EmptyString => acc
  | String c s' => int_from (acc * 10 + digit c)%N s'
  end.

Definition int (s : string) : N := int_from 0%N s.

End str.

(** ** Regular expressions ([re]) as far as the two patterns need them *)

Module re.

Inductive regex : Type :=
| Empty                               (* matches nothing *)
| Eps                                 (* matches the empty string *)
| Bol                                 (* ^ *)
| Eol                                 (* $ *)
| Class (p : ascii -> bool)           (* one character satisfying [p] *)
| Cat (r1 r2 : regex)
| Alt (r1 r2 : regex)
| Star (r : regex).

Definition Chr (c : ascii) : regex := Class (Ascii.eqb c).

Definition is_empty (s : string) : bool :=
  match s with EmptyString => true | _ => false end.

(** [$] holds at the end of the string and just before a newline that
    ends the string; [rest] is what is left of the string. *)
Definition at_eol (rest : string) : bool :=
  match rest with
  | EmptyString => true
  | String c EmptyString => Ascii.eqb c "010"
  | _ => false
  end.

(** Matching by derivatives.  [at_start] tells whether the current
    position is index 0, [rest] is the text from the current position
    on: the two assertions [^] and [$] are decided there. *)
Fixpoint nullable (at_start : bool) (rest : string) (r : regex) : bool :=
  match r with
  | Empty => false
  | Eps => true
  | Bol => at_start
  | Eol => at_eol rest
  | Class _ => false
  | Cat r1 r2 => nullable at_start rest r1 && nullable at_start rest r2
  | Alt r1 r2 => nullable at_start rest r1 || nullable at_start rest r2
  | Star _ => true
  end.

Fixpoint deriv (at_start : bool) (rest : string) (c : ascii) (r : regex) : regex :=
  match r with
  | Empty | Eps | Bol | Eol => Empty
  | Class p => if p c then Eps else Empty
  | Cat r1 r2 =>
      if nullable at_start rest r1
      then Alt (Cat (deriv at_start rest c r1) r2) (deriv at_start rest c r2)
      else Cat (deriv at_start rest c r1) r2
  | Alt r1 r2 => Alt (deriv at_start rest c r1) (deriv at_start rest c r2)
  | Star r1 => Cat (deriv at_start rest c r1) (Star r1)
  end.

Fixpoint match_from (at_start : bool) (r : regex) (s : string) : bool :=
  match s with
  | EmptyString => nullable at_start EmptyString r
  | String c s' => match_from false (deriv at_start s c r) s'
  end.

(** [pattern.fullmatch(s)]: the match starts at index 0 and ends at
    [len(s)]. *)
Definition fullmatch (r : regex) (s : string) : bool := match_from true r s.

(** What it means for a pattern to match the text [s] when [s] begins
    at index 0 or not ([at_start]) and is followed by [post]; Part II
    proves that [fullmatch] decides it. *)
Inductive matches : regex -> bool -> string -> string -> Prop :=
| matches_eps b post : matches Eps b EmptyString post
| matches_bol post : matches Bol true EmptyString post
| matches_eol b post : at_eol post = true -> matches Eol b EmptyString post
| matches_class p c b post : p c = true -> matches (Class p) b (String c EmptyString) post
| matches_cat r1 r2 b s1 s2 post :
    matches r1 b s1 (s2 +:+ post) ->
    matches r2 (b && is_empty s1) s2 post ->
    matches (Cat r1 r2) b (s1 +:+ s2) post
| matches_alt_l r1 r2 b s post : matches r1 b s post -> matches (Alt r1 r2) b s post
| matches_alt_r r1 r2 b s post : matches r2 b s post -> matches (Alt r1 r2) b s post
| matches_star_nil r b post : matches (Star r) b EmptyString post
| matches_star_cons r b s1 s2 post :
    matches r b s1 (s2 +:+ post) ->
    matches (Star r) (b && is_empty s1) s2 post ->
    matches (Star r) b (s1 +:+ s2) post.

(** The language of a pattern without [^] and [$], which does not
    depend on where the text stands. *)
Fixpoint anchor_free (r : regex) : bool :=
  match r with
  | Bol | Eol => false
  | Cat r1 r2 | Alt r1 r2 => anchor_free r1 && anchor_free r2
  | Star r1 => anchor_free r1
  | _ => true
  end.

Inductive lang : regex -> string -> Prop :=
| lang_eps : lang Eps EmptyString
| lang_class p c : p c = true -> lang (Class p) (String c EmptyString)
| lang_cat r1 r2 s1 s2 : lang r1 s1 -> lang r2 s2 -> lang (Cat r1 r2) (s1 +:+ s2)
| lang_alt_l r1 r2 s : lang r1 s -> lang (Alt r1 r2) s
| lang_alt_r r1 r2 s : lang r2 s -> lang (Alt r1 r2) s
| lang_star_nil r : lang (Star r) EmptyString
| lang_star_cons r s1 s2 : lang r s1 -> lang (Star r) s2 -> lang (Star r) (s1 +:+ s2).

End re.

(** ** JSON values

    Plain JSON-compatible Python values: [None], [bool], [int],
    a decimal number, [str], [list] and [dict] (insertion ordered). *)

Record Decimal : Type := mkDecimal { coefficient : Z; exponent : Z }.

Inductive JSON : Type :=
| JNull
| JBool (b : bool)
| JInteger (n : Z)
| JNumber (d : Decimal)
| JString (s : string)
| JArray (items : list JSON)
| JObject (members : list (string * JSON)).

(** [d[key]] / [key in d] on an insertion-ordered dict. *)
Fixpoint dict_get {A : Type} (d : list (string * A)) (key : string) : option A :=
  match d with
  | [] => None
  | (k, v) :: d' => if String.eqb k key then Some v else dict_get d' key
  end.

(** ** [jschon/jsonpointer.py] *)

Module JSONPointer.

Record t : Type := mk { _keys : list string }.

Definition not_tilde_slash (c : ascii) : bool :=
  negb (Ascii.eqb c "~") && negb (Ascii.eqb c "/").
Definition is_0_1 (c : ascii) : bool := Ascii.eqb c "0" || Ascii.eqb c "1".
Definition is_1_9 (c : ascii) : bool :=
  (N.leb 49 (N_of_ascii c) && N.leb (N_of_ascii c) 57)%N.
Definition is_0_9 (c : ascii) : bool :=
  (N.leb 48 (N_of_ascii c) && N.leb (N_of_ascii c) 57)%N.

(** The pattern  ^ ( / ( [^~/] | ( ~[01] ) )* )* $  (spaces added). *)
Definition _json_pointer_re : re.regex :=
  re.Cat re.Bol
    (re.Cat
       (re.Star (re.Cat (re.Chr "/")
                   (re.Star (re.Alt (re.Class not_tilde_slash)
                               (re.Cat (re.Chr "~") (re.Class is_0_1))))))
       re.Eol).

(** The pattern  ^0 | ( [1-9] [0-9]* ) $  (spaces added): the alternation
    binds loosest. *)
Definition _array_index_re : re.regex :=
  re.Alt (re.Cat re.Bol (re.Chr "0"))
         (re.Cat (re.Cat (re.Class is_1_9) (re.Star (re.Class is_0_9))) re.Eol).

Definition escape (key : string) : string :=
  str.replace (str.replace key "~" "~0") "/" "~1".

Definition unescape (token : string) : string :=
  str.replace (str.replace token "~1" "/") "~0" "~".

(** The three kinds of constructor argument; an argument of any other
    type raises [TypeError] and is not a value of [arg]. *)
Inductive arg : Type :=
| of_str (value : string)
| of_keys (value : list string)
| of_pointer (value : t).

Fixpoint init_loop (keys : list string) (values : list arg) : result t :=
  match values with
  | [] => Return (mk keys)
  | of_str value :: values' =>
      if negb (re.fullmatch _json_pointer_re value)
      then Raise JSONPointerError
      else init_loop (keys ++ map unescape (tail (str.split value "/"))) values'
  | of_pointer value :: values' => init_loop (keys ++ _keys value) values'
  | of_keys value :: values' => init_loop (keys ++ value) values'
  end.

Definition __init__ (values : list arg) : result t := init_loop [] values.

Definition __len__ (self : t) : nat := length (_keys self).

Definition __truediv__ (self : t) (key : string) : result t :=
  __init__ [of_pointer self; of_keys [key]].

Definition __eq__ (self other : t) : bool :=
  bool_decide (_keys self = _keys other).

Definition __str__ (self : t) : string :=
  str.join (map (fun key => "/" +:+ escape key) (_keys self)).

(** The inner [resolve] of [evaluate]; [keys] is the deque. *)
Fixpoint resolve (value : JSON) (keys : list string) : result JSON :=
  match keys with
  | [] => Return value
  | key :: keys' =>
      match value with
      | JObject members =>
          match dict_get members key with
          | Some v => resolve v keys'
          | None => Raise JSONPointerError          (* KeyError *)
          end
      | JArray items =>
          if re.fullmatch _array_index_re key
          then match items !! N.to_nat (str.int key) with
               | Some v => resolve v keys'
               | None => Raise JSONPointerError      (* IndexError *)
               end
          else Raise JSONPointerError
      | _ => Raise JSONPointerError
      end
  end.

Definition evaluate (self : t) (document : JSON) : result JSON :=
  resolve document (_keys self).

End JSONPointer.

(** ** URIs ([jschon/uri.py], which is not among the sources)

    A URI reference is held as its text, what [str(uri)] returns. *)

Abbreviation URI := string (only parsing).

Module uri.

(** Modelled from the spec: the property [URI.fragment] of the missing
    [jschon/uri.py].  The spec splits a reference into base and
    fragment and knows the empty fragment: the fragment is the text
    after the first [#], empty when nothing follows it, [None] when
    there is no [#]. *)
Fixpoint fragment (u : URI) : option string :=
  match u with
  | EmptyString => None
  | String c u' => if Ascii.eqb c "#" then Some u' else fragment u'
  end.

(** Modelled from the spec: [URI.copy(fragment=False)] of the missing
    [jschon/uri.py], the reference without its fragment. *)
Fixpoint defrag (u : URI) : URI :=
  match u with
  | EmptyString => EmptyString
  | String c u' => if Ascii.eqb c "#" then EmptyString else String c (defrag u')
  end.

(** Modelled from the spec: [URI("#" + name).resolve(base)] of the
    missing [jschon/uri.py]; the spec forms [<base_uri>#<fragment>]. *)
Definition resolve_fragment (name : string) (base : URI) : URI :=
  defrag base +:+ "#" +:+ name.

(** What the missing URI class takes from its RFC 3986 library, as
    parameters of the model: the syntax check, the presence of a scheme,
    the normal form, and general reference resolution. *)
Record library : Type := mkLibrary {
  well_formed : URI -> bool;
  has_scheme : URI -> bool;
  is_normalized : URI -> bool;
  is_absolute : URI -> bool;
  has_absolute_base : URI -> bool;
  resolve : URI -> URI -> URI;
}.

(** Modelled from the spec: [URI.validate(require_scheme=False,
    require_normalized=False, allow_fragment=True)] of the missing
    [jschon/uri.py], with the three flags the spec lists; it raises
    [URIError] when the reference is malformed or fails a requested
    check. *)
Definition validate (lib : library)
    (require_scheme require_normalized allow_fragment : bool) (u : URI) : result unit :=
  if negb (well_formed lib u) then Raise URIError
  else if require_scheme && negb (has_scheme lib u) then Raise URIError
  else if require_normalized && negb (is_normalized lib u) then Raise URIError
  else if negb allow_fragment && bool_decide (is_Some (fragment u)) then Raise URIError
  else Return tt.

End uri.

(** ** Schemas, vocabularies, the catalogue

    [jschon/jsonschema.py], [jschon/vocabulary/__init__.py] and
    [jschon/catalogue.py] are not among the sources.  The back-reference
    [parentschema.catalogue] is passed explicitly. *)

(** Modelled from the spec: the class [JSONSchema] of the missing
    [jschon/jsonschema.py], with the attributes that
    [vocabulary/core.py] reads and assigns: its URI, its base URI, its
    metaschema URI and its keywords. *)
Record JSONSchema : Type := mkJSONSchema {
  schema_uri : option URI;
  base_uri : option URI;
  metaschema_uri : option URI;
  keywords : list (string * JSON);
}.

(** Modelled from the spec: [JSONSchema.get(key)] of the missing
    [jschon/jsonschema.py], the JSON value of the keyword [key]. *)
Definition schema_get (schema : JSONSchema) (key : string) : option JSON :=
  dict_get (keywords schema) key.

(** Modelled from the spec: the class [Vocabulary] of the missing
    [jschon/vocabulary/__init__.py], a set of keyword classes
    identified by a URI. *)
Record Vocabulary : Type := mkVocabulary {
  vocabulary_uri : URI;
  vocabulary_kwclasses : gset string;
}.

(** Modelled from the spec: the class [Metaschema] of the missing
    [jschon/vocabulary/__init__.py], a schema with its core vocabulary
    and its keyword-class set. *)
Record Metaschema : Type := mkMetaschema {
  metaschema_schema : JSONSchema;
  core_vocabulary : Vocabulary;
  kwclasses : gset string;
}.

(** [parentschema] is a plain schema or a metaschema
    ([isinstance(parentschema, Metaschema)]). *)
Inductive parent_schema : Type :=
| PlainSchema (schema : JSONSchema)
| MetaSchema (metaschema : Metaschema).

(** Modelled from the spec: the registries of the missing
    [jschon/catalogue.py], URI to schema and URI to vocabulary. *)
Record Catalogue : Type := mkCatalogue {
  schemas : gmap string JSONSchema;
  vocabularies : gmap string Vocabulary;
}.

(** Modelled from the spec: [Catalogue.get_schema] of the missing
    [jschon/catalogue.py]; it returns the registered schema and raises
    [CatalogueError] when there is none (every loadable schema is taken
    to be registered already). *)
Definition get_schema (catalogue : Catalogue) (u : URI) : result JSONSchema :=
  match schemas catalogue !! u with
  | Some schema => Return schema
  | None => Raise CatalogueError
  end.

(** Modelled from the spec: [Catalogue.get_vocabulary] of the missing
    [jschon/catalogue.py]; it raises [CatalogueError] for an unknown
    vocabulary. *)
Definition get_vocabulary (catalogue : Catalogue) (u : URI) : result Vocabulary :=
  match vocabularies catalogue !! u with
  | Some vocabulary => Return vocabulary
  | None => Raise CatalogueError
  end.

(** ** Scopes *)

Module Scope.

(** Modelled from the spec: the class [Scope] of the missing
    [jschon/jsonschema.py].  Section 3 of the spec lists its
    attributes: [path], [instpath], [absolute_uri], [schema], [error],
    [annotation], the ordered children and the back-reference [parent].
    The objects refer to each other in both directions; a value of [t]
    unfolds them from one node, downwards through [children], which is
    all the output formatter reads, and upwards through [parent], which
    is all [$dynamicRef] reads. *)
Inductive t : Type := mk {
  schema : JSONSchema;
  path : JSONPointer.t;
  instpath : JSONPointer.t;
  absolute_uri : URI;
  error : option string;
  annotation : option JSON;
  children : list t;
  parent : option t;
}.

(** Modelled from the spec: [Scope.iter_children()], the children in
    their order. *)
Definition iter_children (scope : t) : list t := children scope.

(** Modelled from the spec: the property [Scope.valid], which the spec
    derives: true iff no assertion in the subtree of the scope set an
    error. *)
Fixpoint valid (scope : t) : bool :=
  match error scope with
  | None => forallb valid (children scope)
  | Some _ => false
  end.

End Scope.

(** Python truthiness of an [Optional[str]]. *)
Definition truthy (e : option string) : bool :=
  match e with
  | None => false
  | Some EmptyString => false
  | Some _ => true
  end.

Definition json_of_error (e : option string) : JSON :=
  match e with
  | None => JNull
  | Some msg => JString msg
  end.

(** ** [jschon/output.py] *)

Module OutputFormatter.

Definition flag (scope : Scope.t) : list (string * JSON) :=
  [("valid", JBool (Scope.valid scope))].

Fixpoint _flatten_annotations (scope : Scope.t) : list JSON :=
  if negb (truthy (Scope.error scope))
  then
    match Scope.annotation scope with
    | Some annotation =>
        [JObject
           [("instanceLocation", JString (JSONPointer.__str__ (Scope.instpath scope)));
            ("keywordLocation", JString (JSONPointer.__str__ (Scope.path scope)));
            ("absoluteKeywordLocation", JString (Scope.absolute_uri scope));
            ("annotation", annotation)]]
    | None => []
    end
    ++ flat_map _flatten_annotations (Scope.iter_children scope)
  else [].

Fixpoint _flatten_errors (scope : Scope.t) : list JSON :=
  if negb (Scope.valid scope)
  then
    JObject
      [("instanceLocation", JString (JSONPointer.__str__ (Scope.instpath scope)));
       ("keywordLocation", JString (JSONPointer.__str__ (Scope.path scope)));
       ("absoluteKeywordLocation", JString (Scope.absolute_uri scope));
       ("error", json_of_error (Scope.error scope))]
    :: flat_map _flatten_errors (Scope.iter_children scope)
  else [].

Definition basic (scope : Scope.t) : list (string * JSON) :=
  let valid := Scope.valid scope in
  if valid
  then [("valid", JBool valid); ("annotations", JArray (_flatten_annotations scope))]
  else [("valid", JBool valid); ("errors", JArray (_flatten_errors scope))].

End OutputFormatter.

(** ** Notions used to state the theorems about [output.py] *)


Definition annotation_entry (scope : Scope.t) (annotation : JSON) : JSON :=
  JObject
    [("instanceLocation", JString (JSONPointer.__str__ (Scope.instpath scope)));
     ("keywordLocation", JString (JSONPointer.__str__ (Scope.path scope)));
     ("absoluteKeywordLocation", JString (Scope.absolute_uri scope));
     ("annotation", annotation)].

Definition error_entry (scope : Scope.t) : JSON :=
  JObject
    [("instanceLocation", JString (JSONPointer.__str__ (Scope.instpath scope)));
     ("keywordLocation", JString (JSONPointer.__str__ (Scope.path scope)));
     ("absoluteKeywordLocation", JString (Scope.absolute_uri scope));
     ("error", json_of_error (Scope.error scope))].



(** ** [jschon/vocabulary/core.py]: [SchemaKeyword], [VocabularyKeyword], [IdKeyword]

    A constructor returns the parent schema as its assignments leave
    it, or raises. *)

Definition set_metaschema_uri (schema : JSONSchema) (u : URI) : JSONSchema :=
  {| schema_uri := schema_uri schema;
     base_uri := base_uri schema;
     metaschema_uri := Some u;
     keywords := keywords schema |}.

Definition set_uri (schema : JSONSchema) (u : URI) : JSONSchema :=
  {| schema_uri := Some u;
     base_uri := base_uri schema;
     metaschema_uri := metaschema_uri schema;
     keywords := keywords schema |}.

Definition set_kwclasses (metaschema : Metaschema) (kw : gset string) : Metaschema :=
  {| metaschema_schema := metaschema_schema metaschema;
     core_vocabulary := core_vocabulary metaschema;
     kwclasses := kw |}.

Module SchemaKeyword.

Definition __init__ (lib : uri.library) (parentschema : JSONSchema) (value : string)
  : result JSONSchema :=
  bind (try_except (uri.validate lib true true true value) URIError
          (Raise JSONSchemaError))
    (fun _ => Return (set_metaschema_uri parentschema value)).

End SchemaKeyword.

Module VocabularyKeyword.

(** The [for vocab_uri, vocab_required in value.items()] loop.  When it
    raises, the source has already joined the classes of the entries
    before the failing one into the set; the model keeps the exception
    only. *)
Fixpoint loop (lib : uri.library) (catalogue : Catalogue)
    (items : list (string * bool)) (kwclasses : gset string) : result (gset string) :=
  match items with
  | [] => Return kwclasses
  | (vocab_uri, vocab_required) :: items' =>
      bind (try_except (uri.validate lib true true true vocab_uri) URIError
              (Raise JSONSchemaError))
        (fun _ =>
           match get_vocabulary catalogue vocab_uri with
           | Return vocabulary =>
               loop lib catalogue items' (kwclasses ∪ vocabulary_kwclasses vocabulary)
           | Raise CatalogueError =>
               if vocab_required
               then Raise JSONSchemaError
               else loop lib catalogue items' kwclasses
           | Raise e => Raise e
           end)
  end.

Definition __init__ (lib : uri.library) (catalogue : Catalogue)
    (parentschema : parent_schema) (value : list (string * bool))
  : result parent_schema :=
  match parentschema with
  | PlainSchema _ => Return parentschema
  | MetaSchema metaschema =>
      let core_vocab_uri := vocabulary_uri (core_vocabulary metaschema) in
      if match dict_get value core_vocab_uri with
         | None => true                          (* not in value *)
         | Some flag => negb flag                (* is not True *)
         end
      then Raise JSONSchemaError
      else bind (loop lib catalogue value (kwclasses metaschema))
             (fun kw => Return (MetaSchema (set_kwclasses metaschema kw)))
  end.

End VocabularyKeyword.

Module IdKeyword.

Definition __init__ (lib : uri.library) (parentschema : JSONSchema) (value : string)
  : result JSONSchema :=
  bind (uri.validate lib false true false value)
    (fun _ =>
       bind (if negb (uri.is_absolute lib value)
             then match base_uri parentschema with
                  | Some base => Return (uri.resolve lib value base)
                  | None => Raise JSONSchemaError
                  end
             else Return value)
         (fun u => Return (set_uri parentschema u))).

End IdKeyword.

(** ** [jschon/vocabulary/core.py]: [DynamicRefKeyword] *)

Module DynamicRefKeyword.

Record t : Type := mk {
  parentschema : JSONSchema;
  json_value : string;
  fragment : string;
  refschema : option JSONSchema;
  dynamic : bool;
}.

Definition __init__ (parentschema : JSONSchema) (value : string) : result t :=
  match uri.fragment value with
  | None => Raise JSONSchemaError
  | Some fragment =>
      if str.contains fragment "/"
      then Raise JSONSchemaError
      else Return (mk parentschema value fragment None false)
  end.

(** [dynamic_anchor and dynamic_anchor.value == self.fragment], where
    [dynamic_anchor] is [schema.get("$dynamicAnchor")]: only a string
    value can equal the fragment, and a string is truthy when it is not
    empty. *)
Definition anchor_matches (schema : JSONSchema) (fragment : string) : bool :=
  match schema_get schema "$dynamicAnchor" with
  | Some (JString value) => negb (String.eqb value "") && String.eqb value fragment
  | _ => false
  end.

Definition resolve (lib : uri.library) (self : t) (catalogue : Catalogue) : result t :=
  let u := json_value self in
  bind (if negb (uri.has_absolute_base lib u)
        then match base_uri (parentschema self) with
             | Some base => Return (uri.resolve lib u base)
             | None => Raise JSONSchemaError
             end
        else Return u)
    (fun u =>
       bind (get_schema catalogue u)
         (fun refschema =>
            Return (mk (parentschema self) (json_value self) (fragment self)
                      (Some refschema)
                      (if anchor_matches refschema (fragment self)
                       then true else dynamic self)))).

(** The [while target_scope is not None] loop of [evaluate]. *)
Fixpoint walk (catalogue : Catalogue) (fragment : string)
    (target_scope : Scope.t) (checked_uris : gset string)
    (refschema : option JSONSchema) : result (option JSONSchema) :=
  let continue checked_uris refschema :=
    match Scope.parent target_scope with
    | Some parent => walk catalogue fragment parent checked_uris refschema
    | None => Return refschema
    end in
  match base_uri (Scope.schema target_scope) with
  | Some base =>
      if decide (base ∈ checked_uris)
      then continue checked_uris refschema
      else
        let checked_uris := checked_uris ∪ {[base]} in
        let target_uri := uri.resolve_fragment fragment base in
        match get_schema catalogue target_uri with
        | Return found_schema =>
            if anchor_matches found_schema fragment
            then continue checked_uris (Some found_schema)
            else continue checked_uris refschema
        | Raise CatalogueError => continue checked_uris refschema
        | Raise e => Raise e
        end
  | None => continue checked_uris refschema
  end.

(** The call [refschema.evaluate(instance, scope)] that ends [evaluate]. *)
Record delegation : Type := mkDelegation {
  callee : JSONSchema;
  call_instance : JSON;
  call_scope : Scope.t;
}.

Definition evaluate (self : t) (catalogue : Catalogue)
    (instance : JSON) (scope : Scope.t) : result delegation :=
  bind (if dynamic self
        then walk catalogue (fragment self) scope ∅ (refschema self)
        else Return (refschema self))
    (fun refschema =>
       match refschema with
       | Some refschema => Return (mkDelegation refschema instance scope)
       | None => Raise AttributeError
       end).

End DynamicRefKeyword.

(** ** Notions used to state the theorems about [$dynamicRef] *)

(** The scope stack, innermost scope first, root last. *)
Fixpoint stack (scope : Scope.t) : list Scope.t :=
  scope :: match Scope.parent scope with
           | Some parent => stack parent
           | None => []
           end.

Definition scope_base (scope : Scope.t) : option URI :=
  base_uri (Scope.schema scope).

(** The base URIs that occur in a part of the stack. *)
Definition base_uris (scopes : list Scope.t) : gset string :=
  list_to_set (omap scope_base scopes).

(** What a scope yields: the schema registered under
    [<base_uri>#<fragment>], when it carries a matching
    [$dynamicAnchor]. *)
Definition yields (catalogue : Catalogue) (fragment : string)
    (scope : Scope.t) : option JSONSchema :=
  match scope_base scope with
  | Some base =>
      match schemas catalogue !! uri.resolve_fragment fragment base with
      | Some found =>
          if DynamicRefKeyword.anchor_matches found fragment then Some found else None
      | None => None
      end
  | None => None
  end.

(** The target of the claim as stated: what the outermost yielding
    scope of the stack yields. *)
Definition outermost_match (catalogue : Catalogue) (fragment : string)
    (scopes : list Scope.t) : option JSONSchema :=
  last (omap (yields catalogue fragment) scopes).

(** The loop of [evaluate] run over the stack as a list. *)
Fixpoint walk_stack (catalogue : Catalogue) (fragment : string)
    (scopes : list Scope.t) (checked_uris : gset string)
    (refschema : option JSONSchema) : option JSONSchema :=
  match scopes with
  | [] => refschema
  | scope :: scopes' =>
      match scope_base scope with
      | Some base =>
          if decide (base ∈ checked_uris)
          then walk_stack catalogue fragment scopes' checked_uris refschema
          else walk_stack catalogue fragment scopes' (checked_uris ∪ {[base]})
                 (match yields catalogue fragment scope with
                  | Some found => Some found
                  | None => refschema
                  end)
      | None => walk_stack catalogue fragment scopes' checked_uris refschema
      end
  end.

(** A three-scope stack: schema [a] is entered at the root, refers to
    schema [b], which refers back into [a], where the [$dynamicRef]
    stands.  Both [a] and [b] declare [$dynamicAnchor: node]. *)
Definition schema_a : JSONSchema :=
  {| schema_uri := Some "https://example.com/a";
     base_uri := Some "https://example.com/a";
     metaschema_uri := None;
     keywords := [("$id", JString "https://example.com/a");
                  ("$dynamicAnchor", JString "node");
                  ("type", JString "object")] |}.

Definition schema_b : JSONSchema :=
  {| schema_uri := Some "https://example.com/b";
     base_uri := Some "https://example.com/b";
     metaschema_uri := None;
     keywords := [("$id", JString "https://example.com/b");
                  ("$dynamicAnchor", JString "node");
                  ("type", JString "array")] |}.

Definition schema_a_items : JSONSchema :=
  {| schema_uri := Some "https://example.com/a#/items";
     base_uri := Some "https://example.com/a";
     metaschema_uri := None;
     keywords := [("$dynamicRef", JString "#node")] |}.

Definition example_catalogue : Catalogue :=
  {| schemas :=
       <["https://example.com/a" := schema_a]>
         (<["https://example.com/a#node" := schema_a]>
            (<["https://example.com/b" := schema_b]>
               (<["https://example.com/b#node" := schema_b]>
                  (<["https://example.com/a#/items" := schema_a_items]> ∅))));
     vocabularies := ∅ |}.

Definition scope_of (schema : JSONSchema) (parent : option Scope.t) : Scope.t :=
  {| Scope.schema := schema;
     Scope.path := JSONPointer.mk [];
     Scope.instpath := JSONPointer.mk [];
     Scope.absolute_uri := default "" (schema_uri schema);
     Scope.error := None;
     Scope.annotation := None;
     Scope.children := [];
     Scope.parent := parent |}.

Definition scope_root : Scope.t := scope_of schema_a None.
Definition scope_middle : Scope.t := scope_of schema_b (Some scope_root).

Definition example_dynamic_ref : DynamicRefKeyword.t :=
  {| DynamicRefKeyword.parentschema := schema_a_items;
     DynamicRefKeyword.json_value := "#node";
     DynamicRefKeyword.fragment := "node";
     DynamicRefKeyword.refschema := Some schema_a;
     DynamicRefKeyword.dynamic := true |}.

(** A completed scope tree: the root schema with a passing [title]
    annotation and a passing [type] assertion. *)
Definition example_tree : Scope.t :=
  {| Scope.schema := schema_a;
     Scope.path := JSONPointer.mk [];
     Scope.instpath := JSONPointer.mk [];
     Scope.absolute_uri := "https://example.com/a#";
     Scope.error := None;
     Scope.annotation := None;
     Scope.children :=
       [ {| Scope.schema := schema_a;
            Scope.path := JSONPointer.mk ["title"];
            Scope.instpath := JSONPointer.mk [];
            Scope.absolute_uri := "https://example.com/a#/title";
            Scope.error := None;
            Scope.annotation := Some (JString "A");
            Scope.children := [];
            Scope.parent := None |};
         {| Scope.schema := schema_a;
            Scope.path := JSONPointer.mk ["type"];
            Scope.instpath := JSONPointer.mk [];
            Scope.absolute_uri := "https://example.com/a#/type";
            Scope.error := None;
            Scope.annotation := None;
            Scope.children := [];
            Scope.parent := None |} ];
     Scope.parent := None |}.

(** ** Notions used to state the theorems about [$vocabulary] *)

(** The vocabulary URI passes [validate(require_scheme=True,
    require_normalized=True)]. *)
Definition vocabulary_uri_ok (lib : uri.library) (u : URI) : bool :=
  negb (raised (uri.validate lib true true true u)).

(** The union of the keyword classes of the vocabularies that the
    [$vocabulary] map lists and the catalogue knows. *)
Definition opted_in_kwclasses (catalogue : Catalogue)
    (value : list (string * bool)) : gset string :=
  ⋃ (omap (fun entry : string * bool =>
             vocabulary_kwclasses <$> vocabularies catalogue !! entry.1) value).

(** An entry of the map that makes the constructor fail: its URI is
    invalid, or the vocabulary is unrecognized and required. *)
Definition failing_entry (lib : uri.library) (catalogue : Catalogue)
    (entry : string * bool) : bool :=
  negb (vocabulary_uri_ok lib entry.1)
  || (bool_decide (vocabularies catalogue !! entry.1 = None) && entry.2).

(** A stand-in for the URI library, used in the examples: every
    reference is well formed and normalized, a scheme is marked by a
    colon, resolution appends the reference to the base. *)
Definition example_library : uri.library :=
  {| uri.well_formed := fun _ => true;
     uri.has_scheme := fun u => str.contains u ":";
     uri.is_normalized := fun _ => true;
     uri.is_absolute := fun u => str.contains u ":" && negb (str.contains u "#");
     uri.has_absolute_base := fun u => str.contains u ":";
     uri.resolve := fun ref base => base +:+ ref |}.

Definition core_vocab : Vocabulary :=
  {| vocabulary_uri := "https://json-schema.org/draft/2020-12/vocab/core";
     vocabulary_kwclasses := {["$id"; "$schema"; "$ref"; "$dynamicRef"]} |}.

Definition validation_vocab : Vocabulary :=
  {| vocabulary_uri := "https://json-schema.org/draft/2020-12/vocab/validation";
     vocabulary_kwclasses := {["type"; "uniqueItems"; "multipleOf"]} |}.

Definition vocab_catalogue : Catalogue :=
  {| schemas := ∅;
     vocabularies :=
       <[vocabulary_uri core_vocab := core_vocab]>
         (<[vocabulary_uri validation_vocab := validation_vocab]> ∅) |}.

Definition example_metaschema : Metaschema :=
  {| metaschema_schema := schema_a;
     core_vocabulary := core_vocab;
     kwclasses := ∅ |}.

Definition example_vocabulary_value : list (string * bool) :=
  [("https://json-schema.org/draft/2020-12/vocab/core", true);
   ("https://json-schema.org/draft/2020-12/vocab/validation", true);
   ("https://example.com/vocab/unknown", false)].

(** ** Numbers

    [jschon/json.py], which defines the arithmetic and the comparisons
    of [JSONNumber], is not among the sources.  The spec routes every
    numeric comparison and equality through an exact decimal type: a
    number is a coefficient times a power of ten, operands are brought
    to the smaller of the two exponents and then handled as integers,
    so no operation rounds. *)

Module decimal.

(** Modelled from the spec: the decimal of a Python [int]. *)
Definition of_Z (n : Z) : Decimal := mkDecimal n 0.

(** The coefficient of [d] at the exponent [e <= exponent d]. *)
Definition scaled (d : Decimal) (e : Z) : Z :=
  coefficient d * 10 ^ (exponent d - e).

(** Modelled from the spec: the comparison of two [JSONNumber]s of the
    missing [jschon/json.py], exact. *)
Definition compare (x y : Decimal) : comparison :=
  let e := Z.min (exponent x) (exponent y) in
  Z.compare (scaled x e) (scaled y e).

(** Modelled from the spec: [==], [<=] and [<] of [JSONNumber]. *)
Definition eqb (x y : Decimal) : bool :=
  match compare x y with Eq => true | _ => false end.

Definition leb (x y : Decimal) : bool :=
  match compare x y with Gt => false | _ => true end.

Definition ltb (x y : Decimal) : bool :=
  match compare x y with Lt => true | _ => false end.

(** Modelled from the spec: [x % y] of [JSONNumber] in the missing
    [jschon/json.py], the remainder of the exact quotient, truncated. *)
Definition rem (x y : Decimal) : Decimal :=
  let e := Z.min (exponent x) (exponent y) in
  mkDecimal (Z.rem (scaled x e) (scaled y e)) e.

(** Modelled from the spec: whether a number is integral, as
    [JSON.is_type("integer")] needs it. *)
Definition is_integral (d : Decimal) : bool :=
  Z.leb 0 (exponent d) || Z.eqb (Z.rem (coefficient d) (10 ^ (- exponent d))) 0.

End decimal.

(** The number a decimal denotes. *)
Definition Qvalue (d : Decimal) : Q :=
  (inject_Z (coefficient d) * (10 # 1) ^ exponent d)%Q.

(** The decimal of a JSON number. *)
Definition number_of (x : JSON) : option Decimal :=
  match x with
  | JInteger n => Some (decimal.of_Z n)
  | JNumber d => Some d
  | _ => None
  end.

(** ** Equality of JSON values *)

Definition dict_test {A : Type} (d : list (string * A)) (key : string)
    (test : A -> bool) : bool :=
  (fix find (d : list (string * A)) : bool :=
     match d with
     | [] => false
     | (k, v) :: d' => if String.eqb k key then test v else find d'
     end) d.

Definition list_eqb {A B : Type} (eq : A -> B -> bool) : list A -> list B -> bool :=
  fix go (xs : list A) (ys : list B) : bool :=
    match xs, ys with
    | [], [] => true
    | x :: xs', y :: ys' => eq x y && go xs' ys'
    | _, _ => false
    end.

(** Modelled from the spec: [JSON.__eq__] of the missing
    [jschon/json.py].  Equality is structural; numbers are equal when
    they denote the same number, whatever their type; a boolean is
    never equal to a number; arrays are compared element by element and
    objects member by member in both directions, whatever the order of
    their keys.  This is also the equality [isequal] that
    [tests/test_validators.py] checks the keywords against. *)
Fixpoint json_eqb (x y : JSON) {struct x} : bool :=
  match x with
  | JNull => match y with JNull => true | _ => false end
  | JBool a => match y with JBool b => Bool.eqb a b | _ => false end
  | JInteger n =>
      match number_of y with
      | Some d => decimal.eqb (decimal.of_Z n) d
      | None => false
      end
  | JNumber c =>
      match number_of y with
      | Some d => decimal.eqb c d
      | None => false
      end
  | JString a => match y with JString b => String.eqb a b | _ => false end
  | JArray xs => match y with JArray ys => list_eqb json_eqb xs ys | _ => false end
  | JObject xm =>
      match y with
      | JObject ym =>
          forallb (fun member : string * JSON =>
                     dict_test ym member.1 (fun w => json_eqb member.2 w)) xm
          && forallb (fun member : string * JSON =>
                        dict_test xm member.1 (fun v => json_eqb v member.2)) ym
      | _ => false
      end
  end.

(** Modelled from the spec: [JSON.is_type(jsontype)] of the missing
    [jschon/json.py], as [test_type] of [tests/test_validators.py]
    expects it: an integral number is an integer, however it is
    written. *)
Definition is_type (instance : JSON) (jsontype : string) : bool :=
  match instance with
  | JNull => String.eqb jsontype "null"
  | JBool _ => String.eqb jsontype "boolean"
  | JInteger _ => String.eqb jsontype "number" || String.eqb jsontype "integer"
  | JNumber d =>
      String.eqb jsontype "number"
      || (String.eqb jsontype "integer" && decimal.is_integral d)
  | JString _ => String.eqb jsontype "string"
  | JArray _ => String.eqb jsontype "array"
  | JObject _ => String.eqb jsontype "object"
  end.

(** ** [jschon/keywords/validation.py] *)

(** Modelled from the spec: [KeywordResult(valid, error)] of the missing
    [jschon/schema.py]; an error message is kept as the text of its
    f-string and the value interpolated into it. *)
Inductive message : Type :=
| Message (text : string) (interpolated : list JSON).

Record KeywordResult : Type := mkKeywordResult {
  valid : bool;
  error : option message;
}.

Definition keyword_result (valid : bool) (msg : message) : KeywordResult :=
  {| valid := valid; error := if negb valid then Some msg else None |}.

Module TypeKeyword.

(** The keyword value: a string or a sequence of strings. *)
Inductive value_arg : Type :=
| of_str (value : string)
| of_seq (value : list string).

(** [__init__] leaves in [self.value] a list of type names. *)
Definition __init__ (value : value_arg) : list string :=
  match value with
  | of_str value => [value]
  | of_seq value => value
  end.

Definition evaluate (self_value : list string) (instance : JSON) : KeywordResult :=
  keyword_result (existsb (fun jsontype => is_type instance jsontype) self_value)
    (Message "The value must be of type {self.value}" [JArray (map JString self_value)]).

End TypeKeyword.

Module MultipleOfKeyword.

Definition evaluate (self_value : Decimal) (instance : Decimal) : KeywordResult :=
  keyword_result (decimal.eqb (decimal.rem instance self_value) (decimal.of_Z 0))
    (Message "The value must be a multiple of {self.value}" [JNumber self_value]).

End MultipleOfKeyword.

Module MaximumKeyword.

Definition evaluate (self_value : Decimal) (instance : Decimal) : KeywordResult :=
  keyword_result (decimal.leb instance self_value)
    (Message "The value may not be greater than {self.value}" [JNumber self_value]).

End MaximumKeyword.

Module ExclusiveMaximumKeyword.

Definition evaluate (self_value : Decimal) (instance : Decimal) : KeywordResult :=
  keyword_result (decimal.ltb instance self_value)
    (Message "The value must be less than {self.value}" [JNumber self_value]).

End ExclusiveMaximumKeyword.

Module MinimumKeyword.

Definition evaluate (self_value : Decimal) (instance : Decimal) : KeywordResult :=
  keyword_result (decimal.leb self_value instance)
    (Message "The value may not be less than {self.value}" [JNumber self_value]).

End MinimumKeyword.

Module ExclusiveMinimumKeyword.

Definition evaluate (self_value : Decimal) (instance : Decimal) : KeywordResult :=
  keyword_result (decimal.ltb self_value instance)
    (Message "The value must be greater than {self.value}" [JNumber self_value]).

End ExclusiveMinimumKeyword.

Module UniqueItemsKeyword.

(** [item in uniquified]: some element is the item itself or equal to
    it.  A value is equal to itself ([json_eqb_refl] in Part II), so the
    test is the equality of values. *)
Definition contains (uniquified : list JSON) (item : JSON) : bool :=
  existsb (fun e => json_eqb e item) uniquified.

(** The [for item in instance] loop. *)
Fixpoint uniquify (instance : list JSON) (uniquified : list JSON) : list JSON :=
  match instance with
  | [] => uniquified
  | item :: instance' =>
      if negb (contains uniquified item)
      then uniquify instance' (uniquified ++ [item])
      else uniquify instance' uniquified
  end.

Definition evaluate (self_value : bool) (instance : list JSON) : KeywordResult :=
  let uniquified := uniquify instance [] in
  keyword_result
    (negb self_value || Nat.eqb (length instance) (length uniquified))
    (Message "The array's elements must all be unique'" []).

End UniqueItemsKeyword.

(** A JSON value as Python holds it: the keys of a dict are distinct. *)
Fixpoint well_formed (x : JSON) : bool :=
  match x with
  | JArray items => forallb well_formed items
  | JObject members =>
      bool_decide (NoDup (map fst members))
      && forallb (fun member : string * JSON => well_formed member.2) members
  | _ => true
  end.

(** ** Notions used to state the theorems about [uniqueItems] *)

(** No two elements of the array, at different positions, are equal
    under the sameness rule. *)
Definition all_distinct (instance : list JSON) : Prop :=
  forall i j x y,
    i <> j -> instance !! i = Some x -> instance !! j = Some y ->
    json_eqb x y = false.

(** Every element differs from the elements before it and from the
    elements collected so far. *)
Definition fresh_items (instance uniquified : list JSON) : Prop :=
  forall i x,
    instance !! i = Some x ->
    UniqueItemsKeyword.contains uniquified x = false /\
    forall j y, (j < i)%nat -> instance !! j = Some y -> json_eqb y x = false.

(** The same evaluation against an instance that fails [type]. *)
Definition example_failing_tree : Scope.t :=
  {| Scope.schema := schema_a;
     Scope.path := JSONPointer.mk [];
     Scope.instpath := JSONPointer.mk [];
     Scope.absolute_uri := "https://example.com/a#";
     Scope.error := None;
     Scope.annotation := None;
     Scope.children :=
       [ {| Scope.schema := schema_a;
            Scope.path := JSONPointer.mk ["title"];
            Scope.instpath := JSONPointer.mk [];
            Scope.absolute_uri := "https://example.com/a#/title";
            Scope.error := None;
            Scope.annotation := Some (JString "A");
            Scope.children := [];
            Scope.parent := None |};
         {| Scope.schema := schema_a;
            Scope.path := JSONPointer.mk ["type"];
            Scope.instpath := JSONPointer.mk [];
            Scope.absolute_uri := "https://example.com/a#/type";
            Scope.error := Some "The value must be of type ['object']";
            Scope.annotation := None;
            Scope.children := [];
            Scope.parent := None |} ];
     Scope.parent := None |}.

(** ** Notions used to state the theorems about [jsonpointer.py] *)

(** A reference token of RFC 6901: plain characters, [~0] and [~1]. *)
Inductive token : string -> Prop :=
| token_nil : token ""
| token_plain c t : JSONPointer.not_tilde_slash c = true -> token t -> token (String c t)
| token_tilde0 t : token t -> token ("~0" +:+ t)
| token_tilde1 t : token t -> token ("~1" +:+ t).


(** The two layers of [_json_pointer_re]. *)
Definition token_re : re.regex :=
  re.Star (re.Alt (re.Class JSONPointer.not_tilde_slash)
             (re.Cat (re.Chr "~") (re.Class JSONPointer.is_0_1))).

Definition segment_re : re.regex := re.Cat (re.Chr "/") token_re.

(** The text of a pointer whose escaped tokens are [toks]. *)
Definition render_tokens (toks : list string) : string :=
  str.join (map (fun tok => "/" +:+ tok) toks).

(** [S] conforms to the RFC 6901 syntax: the constructor's own test. *)
Definition rfc6901 (S : string) : Prop :=
  re.fullmatch JSONPointer._json_pointer_re S = true.

(** The decimal numerals without leading zeros, written directly:
    [0], or a digit [1]..[9] followed by digits. *)
Fixpoint all_digits (s : string) : bool :=
  match s with
  | EmptyString => true
  | String c s' => JSONPointer.is_0_9 c && all_digits s'
  end.

Definition canonical_index (key : string) : bool :=
  match key with
  | EmptyString => false
  | String c rest =>
      if Ascii.eqb c "0"
      then match rest with EmptyString => true | _ => false end
      else JSONPointer.is_1_9 c && all_digits rest
  end.

(** One step down a document, and the descent key by key. *)
Definition child (value : JSON) (key : string) : option JSON :=
  match value with
  | JObject members => dict_get members key
  | JArray items =>
      if canonical_index key then items !! N.to_nat (str.int key) else None
  | _ => None
  end.

Fixpoint descend (value : JSON) (keys : list string) : option JSON :=
  match keys with
  | [] => Some value
  | key :: keys' =>
      match child value key with
      | Some v => descend v keys'
      | None => None
      end
  end.

Definition is_array (value : JSON) : bool :=
  match value with JArray _ => true | _ => false end.

Definition is_object (value : JSON) : bool :=
  match value with JObject _ => true | _ => false end.

(* ===================================================================== *)
(** * Part I, continued. More of the sources                              *)
(* ===================================================================== *)

(** ** Python sequences: [seq[i]] and [seq[start:stop]] *)

Module slice.

(** A slice without a step, [start:stop]; either bound may be omitted. *)
Record t : Type := mk { start : option Z; stop : option Z }.

(** [slice.indices(len)] for one bound: a negative bound counts from
    the end, and the result is clamped to [0 .. len]. *)
Definition bound (len : Z) (i : option Z) (default : Z) : Z :=
  match i with
  | None => default
  | Some i => if Z.ltb i 0 then Z.max (i + len) 0 else Z.min i len
  end.

(** [l[start:stop]] *)
Definition of_list {A : Type} (l : list A) (s : t) : list A :=
  let len := Z.of_nat (length l) in
  let a := bound len (start s) 0 in
  let b := bound len (stop s) len in
  take (Z.to_nat (b - a)) (drop (Z.to_nat a) l).

(** [l[i]]; [None] stands for [IndexError]. *)
Definition item {A : Type} (l : list A) (i : Z) : option A :=
  let len := Z.of_nat (length l) in
  if Z.leb 0 i then l !! Z.to_nat i
  else if Z.leb 0 (i + len) then l !! Z.to_nat (i + len)
  else None.

End slice.

(** ** [jschon/jsonpointer.py], continued *)

Module JSONPointerItems.

(** [__getitem__] with an [int]; [None] stands for [IndexError]. *)
Definition getitem (self : JSONPointer.t) (index : Z) : option string :=
  slice.item (JSONPointer._keys self) index.

(** [__getitem__] with a [slice]. *)
Definition getslice (self : JSONPointer.t) (index : slice.t) : result JSONPointer.t :=
  JSONPointer.__init__
    [JSONPointer.of_keys (slice.of_list (JSONPointer._keys self) index)].

(** The message of the [JSONPointerError] that the constructor raises
    for the string [value]. *)
Definition init_error (value : string) : string :=
  "'" +:+ value +:+ "' is not a valid JSON pointer".

End JSONPointerItems.

(** [str(n)] for a natural number [n]: its decimal numeral. *)
Definition digit_char (d : N) : ascii := ascii_of_N (48 + d).

Fixpoint numeral_go (fuel : nat) (n : N) (acc : string) : string :=
  match fuel with
  | O => acc
  | S fuel' =>
      let acc' := String (digit_char (n mod 10)) acc in
      if (n <? 10)%N then acc' else numeral_go fuel' (n / 10)%N acc'
  end.

Definition numeral (n : N) : string := numeral_go (S (N.to_nat n)) n EmptyString.

(** ** [jschon/formats.py]: [JSONPointerFormat] *)

(** Modelled from the spec: [FormatResult(valid, error)] of the missing
    [jschon/schema.py]; the spec gives a format's result as a validity
    with an optional error string. *)
Record FormatResult : Type := mkFormatResult {
  format_valid : bool;
  format_error : option string;
}.

Module JSONPointerFormat.

Definition evaluate (instance : string) : result FormatResult :=
  match JSONPointer.__init__ [JSONPointer.of_str instance] with
  | Return _ => Return (mkFormatResult true None)
  | Raise JSONPointerError =>
      Return (mkFormatResult false (Some (JSONPointerItems.init_error instance)))
  | Raise e => Raise e
  end.

End JSONPointerFormat.

(** ** [jschon/vocabulary/core.py]: [RefKeyword] *)

Module RefKeyword.

Record t : Type := mk {
  parentschema : JSONSchema;
  json_value : string;
  refschema : option JSONSchema;
}.

Definition __init__ (parentschema : JSONSchema) (value : string) : t :=
  mk parentschema value None.

Definition resolve (lib : uri.library) (self : t) (catalogue : Catalogue) : result t :=
  let u := json_value self in
  bind (if negb (uri.has_absolute_base lib u)
        then match base_uri (parentschema self) with
             | Some base => Return (uri.resolve lib u base)
             | None => Raise JSONSchemaError
             end
        else Return u)
    (fun u =>
       bind (get_schema catalogue u)
         (fun refschema =>
            Return (mk (parentschema self) (json_value self) (Some refschema)))).

(** [self.refschema.evaluate(instance, scope)] *)
Definition evaluate (self : t) (instance : JSON) (scope : Scope.t)
  : result DynamicRefKeyword.delegation :=
  match refschema self with
  | Some refschema => Return (DynamicRefKeyword.mkDelegation refschema instance scope)
  | None => Raise AttributeError
  end.

End RefKeyword.

(** ** [jschon/keywords/validation.py], continued *)

(** [key in d] *)
Definition dict_has {A : Type} (d : list (string * A)) (key : string) : bool :=
  match dict_get d key with
  | Some _ => true
  | None => false
  end.

(** [d[key] = v]: the value of an existing key is replaced in place, a
    new key goes to the end. *)
Fixpoint dict_set {A : Type} (d : list (string * A)) (key : string) (v : A)
  : list (string * A) :=
  match d with
  | [] => [(key, v)]
  | (k, w) :: d' =>
      if String.eqb k key then (k, v) :: d' else (k, w) :: dict_set d' key v
  end.

Module EnumKeyword.

Definition evaluate (self_value : list JSON) (instance : JSON) : KeywordResult :=
  keyword_result (existsb (fun e => json_eqb e instance) self_value)
    (Message "The value must be one of {self.value}" [JArray self_value]).

End EnumKeyword.

Module ConstKeyword.

Definition evaluate (self_value : JSON) (instance : JSON) : KeywordResult :=
  keyword_result (json_eqb instance self_value)
    (Message "The value must be equal to {self.value}" [self_value]).

End ConstKeyword.

Module MaxLengthKeyword.

Definition evaluate (self_value : Z) (instance : string) : KeywordResult :=
  keyword_result (Z.leb (Z.of_nat (String.length instance)) self_value)
    (Message "The text is too long (maximum {self.value} characters)"
       [JInteger self_value]).

End MaxLengthKeyword.

Module MinLengthKeyword.

Definition evaluate (self_value : Z) (instance : string) : KeywordResult :=
  keyword_result (Z.leb self_value (Z.of_nat (String.length instance)))
    (Message "The text is too short (minimum {self.value} characters)"
       [JInteger self_value]).

End MinLengthKeyword.

Module MaxItemsKeyword.

Definition evaluate (self_value : Z) (instance : list JSON) : KeywordResult :=
  keyword_result (Z.leb (Z.of_nat (length instance)) self_value)
    (Message "The array has too many elements (maximum {self.value})"
       [JInteger self_value]).

End MaxItemsKeyword.

Module MinItemsKeyword.

Definition evaluate (self_value : Z) (instance : list JSON) : KeywordResult :=
  keyword_result (Z.leb self_value (Z.of_nat (length instance)))
    (Message "The array has too few elements (minimum {self.value})"
       [JInteger self_value]).

End MinItemsKeyword.

Module MaxPropertiesKeyword.

Definition evaluate (self_value : Z) (instance : list (string * JSON)) : KeywordResult :=
  keyword_result (Z.leb (Z.of_nat (length instance)) self_value)
    (Message "The object has too many properties (maximum {self.value})"
       [JInteger self_value]).

End MaxPropertiesKeyword.

Module MinPropertiesKeyword.

Definition evaluate (self_value : Z) (instance : list (string * JSON)) : KeywordResult :=
  keyword_result (Z.leb self_value (Z.of_nat (length instance)))
    (Message "The object has too few properties (minimum {self.value})"
       [JInteger self_value]).

End MinPropertiesKeyword.

Module RequiredKeyword.

(** [[name for name in self.value if name not in instance]] *)
Definition missing (self_value : list string) (instance : list (string * JSON))
  : list string :=
  List.filter (fun name => negb (dict_has instance name)) self_value.

Definition evaluate (self_value : list string) (instance : list (string * JSON))
  : KeywordResult :=
  let missing := missing self_value instance in
  keyword_result (Nat.eqb (length missing) 0)
    (Message "The object is missing required properties {missing}"
       [JArray (map JString missing)]).

End RequiredKeyword.

Module DependentRequiredKeyword.

(** The [for name, dependents in self.value.items()] loop, which fills
    the dict [missing]. *)
Fixpoint loop (items : list (string * list string)) (instance : list (string * JSON))
    (missing : list (string * list string)) : list (string * list string) :=
  match items with
  | [] => missing
  | (name, dependents) :: items' =>
      if dict_has instance name
      then
        let missing_deps :=
          List.filter (fun dep => negb (dict_has instance dep)) dependents in
        match missing_deps with
        | [] => loop items' instance missing
        | _ :: _ => loop items' instance (dict_set missing name missing_deps)
        end
      else loop items' instance missing
  end.

Definition evaluate (self_value : list (string * list string))
    (instance : list (string * JSON)) : KeywordResult :=
  let missing := loop self_value instance [] in
  keyword_result (Nat.eqb (length missing) 0)
    (Message "The object is missing dependent properties {missing}"
       [JObject (map (fun entry : string * list string =>
                        (entry.1, JArray (map JString entry.2))) missing)]).

End DependentRequiredKeyword.

(** ** Notions used to state the theorems about [output.py], continued *)

(** [visible root s]: the scope [s] is [root] or below it, and no scope
    on the way from [root] down to [s], both included, has an error
    that Python takes as true. *)
Inductive visible : Scope.t -> Scope.t -> Prop :=
| visible_here (s : Scope.t) :
    truthy (Scope.error s) = false -> visible s s
| visible_child (s c d : Scope.t) :
    truthy (Scope.error s) = false ->
    In c (Scope.iter_children s) -> visible c d -> visible s d.
(* ===================================================================== *)
(** * Part II. Lemmas and theorems                                        *)
(* ===================================================================== *)

Example escape_ex : JSONPointer.escape "a/b~c" = "a~1b~0c".
Proof. reflexivity. Qed.

Example unescape_ex : JSONPointer.unescape "~01" = "~1".
Proof. reflexivity. Qed.

Example parse_ex :
  JSONPointer.__init__ [JSONPointer.of_str "/a~1b//~01"]
  = Return (JSONPointer.mk ["a/b"; ""; "~1"]).
Proof. vm_compute. reflexivity. Qed.

Example index_re_ex :
  (re.fullmatch JSONPointer._array_index_re "0",
   re.fullmatch JSONPointer._array_index_re "01",
   re.fullmatch JSONPointer._array_index_re "10",
   re.fullmatch JSONPointer._array_index_re "") = (true, false, true, false).
Proof. vm_compute. reflexivity. Qed.

(** ** Strings *)

Lemma str_app_nil_l (s : string) : "" +:+ s = s.
Proof. reflexivity. Qed.

Lemma str_app_cons (c : ascii) (s t : string) : String c s +:+ t = String c (s +:+ t).
Proof. reflexivity. Qed.

Lemma str_app_nil_r (s : string) : s +:+ "" = s.
Proof. induction s as [|c s IH]; [reflexivity|]. rewrite str_app_cons, IH. reflexivity. Qed.

Lemma str_app_assoc (s t u : string) : (s +:+ t) +:+ u = s +:+ (t +:+ u).
Proof. induction s as [|c s IH]; [reflexivity|]. rewrite !str_app_cons, IH. reflexivity. Qed.

Lemma str_app_eq_nil (s t : string) : s +:+ t = "" -> s = "" /\ t = "".
Proof. destruct s; [auto|]. rewrite str_app_cons. discriminate. Qed.

Lemma str_app_eq_cons (s t : string) (c : ascii) (u : string) :
  s +:+ t = String c u ->
  (s = "" /\ t = String c u) \/ (exists s', s = String c s' /\ u = s' +:+ t).
Proof.
  destruct s as [|c' s'].
  - rewrite str_app_nil_l. auto.
  - rewrite str_app_cons. intros [= -> <-]. right. eauto.
Qed.

(** ** Regular expressions: [fullmatch] decides [matches] *)

Lemma matches_nil_nullable (r : re.regex) (b : bool) (s post : string) :
  re.matches r b s post -> s = "" -> re.nullable b post r = true.
Proof.
  induction 1 as [b post|post|b post He|p c b post Hp
                 |r1 r2 b s1 s2 post _ IH1 _ IH2|r1 r2 b s post _ IH|r1 r2 b s post _ IH
                 |r b post|r b s1 s2 post _ _ _ _];
    intros Hs; simpl; try reflexivity.
  - exact He.
  - discriminate.
  - apply str_app_eq_nil in Hs as [-> ->]. rewrite str_app_nil_l in IH1.
    rewrite IH1 by reflexivity. simpl in IH2. rewrite andb_true_r in IH2.
    rewrite IH2 by reflexivity. reflexivity.
  - rewrite IH; auto.
  - rewrite IH; auto. apply orb_true_r.
Qed.

Lemma nullable_matches_nil (r : re.regex) (b : bool) (post : string) :
  re.nullable b post r = true -> re.matches r b "" post.
Proof.
  induction r as [ | | | |p|r1 IH1 r2 IH2|r1 IH1 r2 IH2|r IH]; simpl; intros H;
    try discriminate.
  - constructor.
  - subst. constructor.
  - constructor. exact H.
  - apply andb_true_iff in H as [H1 H2].
    change "" with ("" +:+ ""). constructor.
    + rewrite str_app_nil_l. auto.
    + simpl. rewrite andb_true_r. auto.
  - apply orb_true_iff in H as [H|H];
      [apply re.matches_alt_l|apply re.matches_alt_r]; auto.
  - constructor.
Qed.

Lemma deriv_sound (c : ascii) (r : re.regex) :
  forall b s post,
    re.matches (re.deriv b (String c (s +:+ post)) c r) false s post ->
    re.matches r b (String c s) post.
Proof.
  induction r as [ | | | |p|r1 IH1 r2 IH2|r1 IH1 r2 IH2|r IH]; simpl; intros b s post H;
    try (inversion H; fail).
  - destruct (p c) eqn:Hp; inversion H; subst. constructor; exact Hp.
  - destruct (re.nullable b (String c (s +:+ post)) r1) eqn:Hn.
    + inversion H; subst.
      * match goal with Hl : re.matches (re.Cat _ _) _ _ _ |- _ => inversion Hl; subst end.
        rewrite <- str_app_cons. constructor.
        -- apply IH1. rewrite <- str_app_assoc. assumption.
        -- simpl. rewrite andb_false_r. simpl in *. assumption.
      * rewrite <- (str_app_nil_l (String c s)). constructor.
        -- rewrite str_app_cons. apply nullable_matches_nil. exact Hn.
        -- simpl. rewrite andb_true_r. apply IH2. assumption.
    + inversion H; subst. rewrite <- str_app_cons. constructor.
      * apply IH1. rewrite <- str_app_assoc. assumption.
      * simpl. rewrite andb_false_r. simpl in *. assumption.
  - inversion H; subst; [apply re.matches_alt_l|apply re.matches_alt_r]; auto.
  - inversion H; subst. rewrite <- str_app_cons. apply re.matches_star_cons.
    + apply IH. rewrite <- str_app_assoc. assumption.
    + simpl. rewrite andb_false_r. simpl in *. assumption.
Qed.

Lemma deriv_complete (r : re.regex) (b : bool) (s0 post : string) :
  re.matches r b s0 post ->
  forall c s, s0 = String c s ->
              re.matches (re.deriv b (String c (s +:+ post)) c r) false s post.
Proof.
  induction 1 as [b post|post|b post He|p c' b post Hp
                 |r1 r2 b s1 s2 post H1 IH1 H2 IH2|r1 r2 b s0 post _ IH|r1 r2 b s0 post _ IH
                 |r b post|r b s1 s2 post H1 IH1 H2 IH2];
    intros c s Hs; simpl; try discriminate.
  - injection Hs as -> <-. rewrite Hp. constructor.
  - apply str_app_eq_cons in Hs as [[-> ->]|[s' [-> ->]]].
    + rewrite str_app_cons in H1.
      rewrite (matches_nil_nullable _ _ _ _ H1 eq_refl).
      apply re.matches_alt_r. simpl in IH2. rewrite andb_true_r in IH2.
      apply IH2; reflexivity.
    + simpl in H2. rewrite andb_false_r in H2.
      specialize (IH1 c s' eq_refl). rewrite <- str_app_assoc in IH1.
      destruct (re.nullable b _ r1).
      * apply re.matches_alt_l. constructor; [exact IH1|exact H2].
      * constructor; [exact IH1|exact H2].
  - apply re.matches_alt_l. apply IH; exact Hs.
  - apply re.matches_alt_r. apply IH; exact Hs.
  - apply str_app_eq_cons in Hs as [[-> ->]|[s' [-> ->]]].
    + simpl in IH2. rewrite andb_true_r in IH2. apply (IH2 c s eq_refl).
    + simpl in H2. rewrite andb_false_r in H2.
      specialize (IH1 c s' eq_refl). rewrite <- str_app_assoc in IH1.
      constructor; [exact IH1|exact H2].
Qed.

Lemma match_from_matches (s : string) :
  forall b r, re.match_from b r s = true <-> re.matches r b s "".
Proof.
  induction s as [|c s IH]; intros b r; simpl.
  - split; [apply nullable_matches_nil|intros H; eapply matches_nil_nullable; eauto].
  - rewrite IH. split.
    + intros H. apply deriv_sound. rewrite str_app_nil_r. exact H.
    + intros H. pose proof (deriv_complete _ _ _ _ H c s eq_refl) as H'.
      rewrite str_app_nil_r in H'. exact H'.
Qed.

Theorem fullmatch_matches (r : re.regex) (s : string) :
  re.fullmatch r s = true <-> re.matches r true s "".
Proof. apply match_from_matches. Qed.

(** Without [^] and [$] the position does not matter. *)
Lemma lang_matches (r : re.regex) (s : string) :
  re.lang r s -> forall b post, re.matches r b s post.
Proof.
  induction 1 as [ |p c Hp|r1 r2 s1 s2 _ IH1 _ IH2|r1 r2 s _ IH|r1 r2 s _ IH
                 |r|r s1 s2 _ IH1 _ IH2]; intros b post.
  - constructor.
  - constructor. exact Hp.
  - constructor; [apply IH1|apply IH2].
  - apply re.matches_alt_l. apply IH.
  - apply re.matches_alt_r. apply IH.
  - constructor.
  - apply re.matches_star_cons; [apply IH1|apply IH2].
Qed.

Lemma matches_lang (r : re.regex) (b : bool) (s post : string) :
  re.matches r b s post -> re.anchor_free r = true -> re.lang r s.
Proof.
  induction 1 as [b post|post|b post He|p c b post Hp
                 |r1 r2 b s1 s2 post _ IH1 _ IH2|r1 r2 b s post _ IH|r1 r2 b s post _ IH
                 |r b post|r b s1 s2 post _ IH1 _ IH2];
    simpl; intros Haf; try discriminate.
  - constructor.
  - constructor. exact Hp.
  - apply andb_true_iff in Haf as [H1 H2]. constructor; auto.
  - apply andb_true_iff in Haf as [H1 H2]. apply re.lang_alt_l. auto.
  - apply andb_true_iff in Haf as [H1 H2]. apply re.lang_alt_r. auto.
  - constructor.
  - apply re.lang_star_cons; auto.
Qed.

Lemma matches_bol_inv (b : bool) (s post : string) :
  re.matches re.Bol b s post -> s = EmptyString /\ b = true.
Proof. intros H. inversion H; subst. auto. Qed.

Lemma matches_eol_inv (b : bool) (s post : string) :
  re.matches re.Eol b s post -> s = EmptyString /\ re.at_eol post = true.
Proof. intros H. inversion H; subst. auto. Qed.

(** A pattern of the form [^r$], [r] without anchors, under
    [fullmatch]. *)
Lemma fullmatch_anchored (r : re.regex) (s : string) :
  re.anchor_free r = true ->
  re.fullmatch (re.Cat re.Bol (re.Cat r re.Eol)) s = true <-> re.lang r s.
Proof.
  intros Haf. rewrite fullmatch_matches. split.
  - intros H. inversion H as [ | | | |? ? ? s1 s2 ? H1 H2| | | |]; subst.
    apply matches_bol_inv in H1 as [-> _]. rewrite str_app_nil_l.
    inversion H2 as [ | | | |? ? ? s3 s4 ? H3 H4| | | |]; subst.
    apply matches_eol_inv in H4 as [-> _]. rewrite str_app_nil_r.
    eapply matches_lang; eauto.
  - intros H. rewrite <- (str_app_nil_l s). constructor; [constructor|].
    rewrite <- (str_app_nil_r s). constructor.
    + apply lang_matches. exact H.
    + constructor. reflexivity.
Qed.

(** ** [escape] and [unescape], one character at a time *)

Lemma replace_char_cons (c o : ascii) (s new : string) :
  str.replace (String c s) (String o "") new
  = if Ascii.eqb c o then new +:+ str.replace s (String o "") new
    else String c (str.replace s (String o "") new).
Proof.
  unfold str.replace. simpl. rewrite andb_true_r. reflexivity.
Qed.

Lemma replace_nil (old new : string) : str.replace "" old new = "".
Proof. reflexivity. Qed.

Lemma replace_pair_other (c a b : ascii) (s new : string) :
  Ascii.eqb c a = false ->
  str.replace (String c s) (String a (String b "")) new
  = String c (str.replace s (String a (String b "")) new).
Proof. intros Hc. unfold str.replace. simpl. rewrite Hc. reflexivity. Qed.

Lemma replace_pair_hit (a b : ascii) (s new : string) :
  str.replace (String a (String b s)) (String a (String b "")) new
  = new +:+ str.replace s (String a (String b "")) new.
Proof.
  unfold str.replace. simpl. rewrite !Ascii.eqb_refl. reflexivity.
Qed.

Lemma replace_pair_miss (a b d : ascii) (s new : string) :
  Ascii.eqb d b = false -> Ascii.eqb d a = false ->
  str.replace (String a (String d s)) (String a (String b "")) new
  = String a (String d (str.replace s (String a (String b "")) new)).
Proof.
  intros Hb Ha. unfold str.replace. simpl.
  rewrite Ascii.eqb_refl, Hb, Ha. reflexivity.
Qed.

Lemma escape_nil : JSONPointer.escape "" = "".
Proof. reflexivity. Qed.

Lemma escape_cons (c : ascii) (k : string) :
  JSONPointer.escape (String c k)
  = if Ascii.eqb c "~" then "~0" +:+ JSONPointer.escape k
    else if Ascii.eqb c "/" then "~1" +:+ JSONPointer.escape k
    else String c (JSONPointer.escape k).
Proof.
  unfold JSONPointer.escape. rewrite replace_char_cons.
  destruct (Ascii.eqb c "~") eqn:Ht.
  - rewrite !str_app_cons, str_app_nil_l, !replace_char_cons. reflexivity.
  - rewrite replace_char_cons. reflexivity.
Qed.

Lemma unescape_nil : JSONPointer.unescape "" = "".
Proof. reflexivity. Qed.

Lemma unescape_plain (c : ascii) (t : string) :
  Ascii.eqb c "~" = false ->
  JSONPointer.unescape (String c t) = String c (JSONPointer.unescape t).
Proof.
  intros Hc. unfold JSONPointer.unescape.
  rewrite !replace_pair_other by exact Hc. reflexivity.
Qed.

Lemma unescape_tilde0 (t : string) :
  JSONPointer.unescape ("~0" +:+ t) = String "~" (JSONPointer.unescape t).
Proof.
  unfold JSONPointer.unescape. rewrite !str_app_cons, str_app_nil_l.
  rewrite replace_pair_miss by reflexivity.
  rewrite replace_pair_hit. reflexivity.
Qed.

Lemma unescape_tilde1 (t : string) :
  JSONPointer.unescape ("~1" +:+ t) = String "/" (JSONPointer.unescape t).
Proof.
  unfold JSONPointer.unescape. rewrite !str_app_cons, str_app_nil_l.
  rewrite replace_pair_hit. rewrite str_app_cons, str_app_nil_l.
  rewrite replace_pair_other by reflexivity. reflexivity.
Qed.

Lemma unescape_escape (key : string) :
  JSONPointer.unescape (JSONPointer.escape key) = key.
Proof.
  induction key as [|c k IH]; [reflexivity|].
  rewrite escape_cons.
  destruct (Ascii.eqb c "~") eqn:Ht.
  - apply Ascii.eqb_eq in Ht as ->. rewrite unescape_tilde0, IH. reflexivity.
  - destruct (Ascii.eqb c "/") eqn:Hs.
    + apply Ascii.eqb_eq in Hs as ->. rewrite unescape_tilde1, IH. reflexivity.
    + rewrite unescape_plain by exact Ht. rewrite IH. reflexivity.
Qed.

Lemma not_tilde_slash_inv (c : ascii) :
  JSONPointer.not_tilde_slash c = true ->
  Ascii.eqb c "~" = false /\ Ascii.eqb c "/" = false.
Proof.
  unfold JSONPointer.not_tilde_slash. intros H.
  apply andb_true_iff in H as [H1 H2].
  split; apply negb_true_iff; assumption.
Qed.

Lemma escape_unescape (t : string) :
  token t -> JSONPointer.escape (JSONPointer.unescape t) = t.
Proof.
  induction 1 as [|c t Hc _ IH|t _ IH|t _ IH].
  - reflexivity.
  - apply not_tilde_slash_inv in Hc as [Ht Hs].
    rewrite unescape_plain by exact Ht. rewrite escape_cons, Ht, Hs, IH. reflexivity.
  - rewrite unescape_tilde0, escape_cons. simpl. rewrite IH. reflexivity.
  - rewrite unescape_tilde1, escape_cons. simpl. rewrite IH. reflexivity.
Qed.

Lemma token_no_slash (t : string) : token t -> str.contains t "/" = false.
Proof.
  induction 1 as [|c t Hc _ IH|t _ IH|t _ IH]; simpl; auto.
  apply not_tilde_slash_inv in Hc as [_ Hs]. rewrite Hs. exact IH.
Qed.

Lemma token_escape (key : string) : token (JSONPointer.escape key).
Proof.
  induction key as [|c k IH]; [constructor|].
  rewrite escape_cons.
  destruct (Ascii.eqb c "~") eqn:Ht; [apply token_tilde0; exact IH|].
  destruct (Ascii.eqb c "/") eqn:Hs; [apply token_tilde1; exact IH|].
  apply token_plain; [|exact IH].
  unfold JSONPointer.not_tilde_slash. rewrite Ht, Hs. reflexivity.
Qed.

(** ** The shape of the strings [_json_pointer_re] accepts *)

Lemma lang_star_ind' (r : re.regex) (P : string -> Prop) :
  P "" ->
  (forall s1 s2, re.lang r s1 -> re.lang (re.Star r) s2 -> P s2 -> P (s1 +:+ s2)) ->
  forall s, re.lang (re.Star r) s -> P s.
Proof.
  intros Hnil Hcons s H. remember (re.Star r) as r' eqn:Hr.
  induction H; try discriminate.
  - exact Hnil.
  - injection Hr as ->. apply Hcons; auto.
Qed.

Lemma lang_chr_inv (c : ascii) (s : string) :
  re.lang (re.Chr c) s -> s = String c "".
Proof.
  unfold re.Chr. intros H. inversion H as [ |p c' Hp| | | | |]; subst.
  apply Ascii.eqb_eq in Hp as ->. reflexivity.
Qed.

Lemma lang_chr (c : ascii) : re.lang (re.Chr c) (String c "").
Proof. unfold re.Chr. constructor. apply Ascii.eqb_refl. Qed.

Lemma pointer_re_unfold :
  JSONPointer._json_pointer_re
  = re.Cat re.Bol (re.Cat (re.Star segment_re) re.Eol).
Proof. reflexivity. Qed.

Lemma lang_token_re (t : string) : re.lang token_re t -> token t.
Proof.
  unfold token_re. apply lang_star_ind'; [constructor|].
  intros s1 s2 H1 _ IH.
  inversion H1 as [ | | |? ? ? Hl|? ? ? Hr| |]; subst.
  - inversion Hl; subst. rewrite str_app_cons, str_app_nil_l. apply token_plain; assumption.
  - inversion Hr as [ | |? ? t1 t2 Ht1 Ht2| | | |]; subst.
    apply lang_chr_inv in Ht1 as ->.
    inversion Ht2 as [ |p d Hd| | | | |]; subst.
    unfold JSONPointer.is_0_1 in Hd. apply orb_true_iff in Hd as [Hd|Hd];
      apply Ascii.eqb_eq in Hd as ->.
    + apply (token_tilde0 s2 IH).
    + apply (token_tilde1 s2 IH).
Qed.

Lemma token_lang_re (t : string) : token t -> re.lang token_re t.
Proof.
  unfold token_re.
  induction 1 as [|c t Hc _ IH|t _ IH|t _ IH].
  - constructor.
  - change (String c t) with (String c "" +:+ t).
    apply re.lang_star_cons; [|exact IH].
    apply re.lang_alt_l. constructor. exact Hc.
  - apply re.lang_star_cons; [|exact IH].
    apply re.lang_alt_r. change "~0" with ("~" +:+ "0").
    constructor; [apply lang_chr|constructor; reflexivity].
  - apply re.lang_star_cons; [|exact IH].
    apply re.lang_alt_r. change "~1" with ("~" +:+ "1").
    constructor; [apply lang_chr|constructor; reflexivity].
Qed.

Lemma render_tokens_cons (tok : string) (toks : list string) :
  render_tokens (tok :: toks) = String "/" (tok +:+ render_tokens toks).
Proof.
  unfold render_tokens, str.join. simpl.
  rewrite str_app_cons, str_app_nil_l. reflexivity.
Qed.

(** A conforming string is a rendering of reference tokens, and
    conversely. *)
Lemma rfc6901_tokens (S : string) :
  rfc6901 S <-> exists toks, Forall token toks /\ S = render_tokens toks.
Proof.
  unfold rfc6901. rewrite pointer_re_unfold, fullmatch_anchored by reflexivity.
  split.
  - revert S. apply lang_star_ind'.
    + exists []. split; [constructor|reflexivity].
    + intros u1 u2 Hseg _ [toks [Htoks ->]].
      unfold segment_re in Hseg.
      inversion Hseg as [ | |? ? t1 t2 Ht1 Ht2| | | |]; subst.
      apply lang_chr_inv in Ht1 as ->. apply lang_token_re in Ht2.
      exists (t2 :: toks). split; [constructor; assumption|].
      rewrite render_tokens_cons, str_app_cons, str_app_nil_l. reflexivity.
  - intros [toks [Htoks ->]].
    induction Htoks as [|tok toks Htok _ IH]; [constructor|].
    rewrite render_tokens_cons.
    change (String "/" (tok +:+ render_tokens toks))
      with (("/" +:+ tok) +:+ render_tokens toks).
    apply re.lang_star_cons; [|exact IH].
    unfold segment_re. constructor; [apply lang_chr|apply token_lang_re; exact Htok].
Qed.

(** ** [split] on a rendering *)

Lemma split_not_nil (s : string) (sep : ascii) : str.split s sep <> [].
Proof.
  destruct s as [|c s]; simpl; [discriminate|].
  destruct (Ascii.eqb c sep); [discriminate|].
  destruct (str.split s sep); discriminate.
Qed.

Lemma split_app_free (t r : string) (sep : ascii) :
  str.contains t sep = false ->
  str.split (t +:+ r) sep
  = match str.split r sep with
    | h :: tl => (t +:+ h) :: tl
    | [] => [t]
    end.
Proof.
  induction t as [|c t IH]; simpl; intros Hc.
  - rewrite str_app_nil_l. destruct (str.split r sep) eqn:E; [|reflexivity].
    exfalso. eapply split_not_nil; eauto.
  - apply orb_false_iff in Hc as [Hc1 Hc2].
    rewrite ?str_app_cons; simpl. rewrite Hc1, (IH Hc2).
    destruct (str.split r sep); reflexivity.
Qed.

Lemma split_render_tokens (toks : list string) :
  Forall (fun tok => str.contains tok "/" = false) toks ->
  str.split (render_tokens toks) "/" = "" :: toks.
Proof.
  induction 1 as [|tok toks Htok _ IH]; [reflexivity|].
  rewrite render_tokens_cons. simpl.
  rewrite (split_app_free _ _ _ Htok), IH, str_app_nil_r. reflexivity.
Qed.

(** ** Parsing and rendering *)

Lemma str_render_tokens (keys : list string) :
  JSONPointer.__str__ (JSONPointer.mk keys)
  = render_tokens (map JSONPointer.escape keys).
Proof.
  unfold JSONPointer.__str__, render_tokens. simpl.
  rewrite map_map. reflexivity.
Qed.

(** Parsing a rendering of reference tokens unescapes each of them. *)
Lemma init_render_tokens (toks : list string) :
  Forall token toks ->
  JSONPointer.__init__ [JSONPointer.of_str (render_tokens toks)]
  = Return (JSONPointer.mk (map JSONPointer.unescape toks)).
Proof.
  intros Htoks. unfold JSONPointer.__init__. simpl.
  assert (Hm : rfc6901 (render_tokens toks)) by (apply rfc6901_tokens; eauto).
  unfold rfc6901 in Hm. rewrite Hm. simpl.
  rewrite split_render_tokens; [reflexivity|].
  eapply Forall_impl; [exact Htoks|]. intros t Ht. apply token_no_slash. exact Ht.
Qed.

Lemma map_unescape_escape (keys : list string) :
  map JSONPointer.unescape (map JSONPointer.escape keys) = keys.
Proof.
  induction keys as [|k keys IH]; simpl; [reflexivity|].
  rewrite unescape_escape, IH. reflexivity.
Qed.

Lemma map_escape_unescape (toks : list string) :
  Forall token toks ->
  map JSONPointer.escape (map JSONPointer.unescape toks) = toks.
Proof.
  induction 1 as [|t toks Ht _ IH]; simpl; [reflexivity|].
  rewrite escape_unescape by exact Ht. rewrite IH. reflexivity.
Qed.

(** C3. JSON Pointer round trip.  (1) A pointer built from any sequence
    of unescaped keys is rendered to a string that the constructor
    accepts and parses back to an equal pointer.  (2) Every string that
    conforms to the RFC 6901 syntax is accepted, and rendering the
    parsed pointer gives the string back; the equality is verbatim, so
    it holds in particular after unescaping the [~0]/[~1] sequences of
    both sides, which is the last conjunct. *)
Theorem JSONPointer_round_trip (keys : list string) (S : string) :
  (exists P P',
      JSONPointer.__init__ [JSONPointer.of_keys keys] = Return P /\
      JSONPointer.__init__ [JSONPointer.of_str (JSONPointer.__str__ P)] = Return P' /\
      JSONPointer.__eq__ P' P = true /\ P' = P)
  /\
  (rfc6901 S ->
   exists P,
     JSONPointer.__init__ [JSONPointer.of_str S] = Return P /\
     JSONPointer.__str__ P = S /\
     map JSONPointer.unescape (tail (str.split (JSONPointer.__str__ P) "/"))
     = map JSONPointer.unescape (tail (str.split S "/"))).
Proof.
  split.
  - exists (JSONPointer.mk keys), (JSONPointer.mk keys).
    split; [reflexivity|].
    rewrite str_render_tokens, init_render_tokens, map_unescape_escape.
    + split; [reflexivity|]. split; [|reflexivity].
      unfold JSONPointer.__eq__. apply bool_decide_eq_true. reflexivity.
    + apply List.Forall_forall. intros t Ht. apply in_map_iff in Ht as [k [<- _]].
      apply token_escape.
  - intros HS. apply rfc6901_tokens in HS as [toks [Htoks ->]].
    exists (JSONPointer.mk (map JSONPointer.unescape toks)).
    split; [apply init_render_tokens; exact Htoks|].
    assert (Hstr : JSONPointer.__str__ (JSONPointer.mk (map JSONPointer.unescape toks))
                   = render_tokens toks).
    { rewrite str_render_tokens, map_escape_unescape by exact Htoks. reflexivity. }
    rewrite Hstr. split; reflexivity.
Qed.

Lemma JSONPointer_round_trip_witness :
  rfc6901 "/a~1b//~01/m~0n" /\
  exists P,
    JSONPointer.__init__ [JSONPointer.of_str "/a~1b//~01/m~0n"] = Return P /\
    JSONPointer.__str__ P = "/a~1b//~01/m~0n" /\
    map JSONPointer.unescape (tail (str.split (JSONPointer.__str__ P) "/"))
    = map JSONPointer.unescape (tail (str.split "/a~1b//~01/m~0n" "/")).
Proof.
  split; [vm_compute; reflexivity|].
  apply (proj2 (JSONPointer_round_trip [] "/a~1b//~01/m~0n")).
  vm_compute. reflexivity.
Defined.

(** ** [_array_index_re] under [fullmatch] *)

Lemma lang_digits (s : string) :
  re.lang (re.Star (re.Class JSONPointer.is_0_9)) s <-> all_digits s = true.
Proof.
  split.
  - intros H.
    apply (lang_star_ind' (re.Class JSONPointer.is_0_9)
             (fun s => all_digits s = true)) with (s := s);
      [reflexivity| |exact H].
    intros s1 s2 H1 _ IH. inversion H1; subst.
    rewrite str_app_cons, str_app_nil_l. simpl. rewrite IH, andb_true_r. assumption.
  - induction s as [|c s IH]; simpl; intros H; [constructor|].
    apply andb_true_iff in H as [Hc Hs].
    change (String c s) with (String c "" +:+ s).
    apply re.lang_star_cons; [constructor; exact Hc|apply IH; exact Hs].
Qed.

Lemma is_1_9_not_zero (c : ascii) :
  JSONPointer.is_1_9 c = true -> Ascii.eqb c "0" = false.
Proof.
  intros H. apply Ascii.eqb_neq. intros ->. vm_compute in H. discriminate.
Qed.

Lemma array_index_re_canonical (key : string) :
  re.fullmatch JSONPointer._array_index_re key = canonical_index key.
Proof.
  apply eq_true_iff_eq. rewrite fullmatch_matches.
  unfold JSONPointer._array_index_re. split.
  - intros H. inversion H as [ | | | | |? ? ? ? ? Hl|? ? ? ? ? Hr| |]; subst.
    + inversion Hl as [ | | | |? ? ? s1 s2 ? H1 H2| | | |]; subst.
      apply matches_bol_inv in H1 as [-> _].
      apply matches_lang in H2; [|reflexivity].
      apply lang_chr_inv in H2 as ->. reflexivity.
    + inversion Hr as [ | | | |? ? ? s1 s2 ? H1 H2| | | |]; subst.
      apply matches_eol_inv in H2 as [-> _]. rewrite str_app_nil_r.
      apply matches_lang in H1; [|reflexivity].
      inversion H1 as [ | |? ? t1 t2 Ht1 Ht2| | | |]; subst.
      inversion Ht1 as [ |p c Hc| | | | |]; subst.
      rewrite str_app_cons, str_app_nil_l. simpl.
      rewrite (is_1_9_not_zero _ Hc), Hc. apply lang_digits. exact Ht2.
  - destruct key as [|c rest]; simpl; [discriminate|].
    destruct (Ascii.eqb c "0") eqn:Hz.
    + destruct rest; [|discriminate]. intros _.
      apply Ascii.eqb_eq in Hz as ->. apply re.matches_alt_l.
      rewrite <- (str_app_nil_l "0"). constructor; [constructor|].
      apply lang_matches. apply lang_chr.
    + intros H. apply andb_true_iff in H as [Hc Hd].
      apply re.matches_alt_r.
      rewrite <- (str_app_nil_r (String c rest)). constructor; [|constructor; reflexivity].
      apply lang_matches.
      change (String c rest) with (String c "" +:+ rest).
      constructor; [constructor; exact Hc|apply lang_digits; exact Hd].
Qed.

(** A numeral with a leading zero is not an array index. *)
Lemma leading_zero_not_index (rest : string) :
  rest <> "" -> canonical_index (String "0" rest) = false.
Proof. destruct rest; [congruence|reflexivity]. Qed.

(** ** [evaluate] *)

Lemma resolve_descend (keys : list string) :
  forall value,
    JSONPointer.resolve value keys
    = match descend value keys with
      | Some v => Return v
      | None => Raise JSONPointerError
      end.
Proof.
  induction keys as [|key keys IH]; intros value; simpl; [reflexivity|].
  destruct value as [ |b|n|d|s|items|members]; simpl; try reflexivity.
  - rewrite array_index_re_canonical.
    destruct (canonical_index key); [|reflexivity].
    destruct (items !! N.to_nat (str.int key)); [apply IH|reflexivity].
  - destruct (dict_get members key); [apply IH|reflexivity].
Qed.

Lemma evaluate_cons_child (key : string) (keys : list string) (document : JSON) :
  child document key = None ->
  JSONPointer.evaluate (JSONPointer.mk (key :: keys)) document = Raise JSONPointerError.
Proof.
  intros H. unfold JSONPointer.evaluate. rewrite resolve_descend. simpl.
  rewrite H. reflexivity.
Qed.

(** C4, the claim as stated fails: a numeric token applied to a
    non-array need not fail.  On the object [{"0": true}] the token [0]
    is a member name and the pointer [/0] resolves to [true]. *)
Lemma evaluate_numeric_token_on_object :
  canonical_index "0" = true /\
  re.fullmatch JSONPointer._array_index_re "0" = true /\
  is_array (JObject [("0", JBool true)]) = false /\
  JSONPointer.evaluate (JSONPointer.mk ["0"]) (JObject [("0", JBool true)])
  = Return (JBool true).
Proof. repeat split. Qed.

(** C4 (amended).  [evaluate] returns the value reached by descending
    through the document key by key ([descend]: a member of an object by
    name, an element of an array by a token that is a decimal numeral
    without leading zeros), and raises [JSONPointerError] when the
    descent is stuck: a key absent from an object, an index out of an
    array's range, a token on an array that is not of the form
    0|[1-9][0-9]* - so a token with a leading zero never resolves on an
    array - and any token applied to a value that is neither an array
    nor an object (a string included).  A numeric token applied to an
    object is an ordinary member name. *)
Theorem JSONPointer_evaluate_spec (P : JSONPointer.t) (document : JSON) :
  JSONPointer.evaluate P document
  = match descend document (JSONPointer._keys P) with
    | Some v => Return v
    | None => Raise JSONPointerError
    end
  /\
  (forall key keys members,
      document = JObject members -> dict_get members key = None ->
      JSONPointer.evaluate (JSONPointer.mk (key :: keys)) document
      = Raise JSONPointerError)
  /\
  (forall key keys items,
      document = JArray items -> (length items <= N.to_nat (str.int key))%nat ->
      JSONPointer.evaluate (JSONPointer.mk (key :: keys)) document
      = Raise JSONPointerError)
  /\
  (forall key keys items,
      document = JArray items -> canonical_index key = false ->
      JSONPointer.evaluate (JSONPointer.mk (key :: keys)) document
      = Raise JSONPointerError)
  /\
  (forall rest keys items,
      document = JArray items -> rest <> "" ->
      JSONPointer.evaluate (JSONPointer.mk (String "0" rest :: keys)) document
      = Raise JSONPointerError)
  /\
  (forall key keys,
      is_array document = false -> is_object document = false ->
      JSONPointer.evaluate (JSONPointer.mk (key :: keys)) document
      = Raise JSONPointerError)
  /\
  (forall key keys members v,
      document = JObject members -> dict_get members key = Some v ->
      JSONPointer.evaluate (JSONPointer.mk (key :: keys)) document
      = JSONPointer.evaluate (JSONPointer.mk keys) v).
Proof.
  split; [apply resolve_descend|].
  split; [intros key keys members -> H; apply evaluate_cons_child; exact H|].
  split.
  { intros key keys items -> H. apply evaluate_cons_child. simpl.
    destruct (canonical_index key); [|reflexivity].
    apply lookup_ge_None. exact H. }
  split.
  { intros key keys items -> H. apply evaluate_cons_child. simpl.
    rewrite H. reflexivity. }
  split.
  { intros rest keys items -> H. apply evaluate_cons_child. unfold child.
    rewrite (leading_zero_not_index _ H). reflexivity. }
  split.
  { intros key keys Ha Ho. apply evaluate_cons_child.
    destruct document; try reflexivity; discriminate. }
  intros key keys members v -> H. unfold JSONPointer.evaluate. simpl.
  rewrite H. reflexivity.
Qed.

Lemma JSONPointer_evaluate_spec_witness :
  "1" <> "" /\
  JSONPointer.evaluate (JSONPointer.mk ["01"]) (JArray [JInteger 10; JInteger 20])
  = Raise JSONPointerError.
Proof.
  split; [discriminate|].
  pose proof (JSONPointer_evaluate_spec (JSONPointer.mk [])
                (JArray [JInteger 10; JInteger 20])) as (_ & _ & _ & _ & H & _).
  apply (H "1" [] [JInteger 10; JInteger 20]); [reflexivity|discriminate].
Defined.

Example evaluate_ex :
  JSONPointer.evaluate (JSONPointer.mk ["a"; "1"])
    (JObject [("a", JArray [JInteger 10; JString "x"])])
  = Return (JString "x").
Proof. reflexivity. Qed.

Example evaluate_string_ex :
  JSONPointer.evaluate (JSONPointer.mk ["0"]) (JString "abc") = Raise JSONPointerError.
Proof. reflexivity. Qed.

(** ** The output formatter *)

Lemma Scope_tree_ind (P : Scope.t -> Prop) :
  (forall scope, List.Forall P (Scope.children scope) -> P scope) ->
  forall scope, P scope.
Proof.
  intros H. fix rec 1. intros scope. apply H.
  destruct scope as [sch p ip au e a ch par]. simpl.
  induction ch as [|c ch IH]; constructor; [apply rec|exact IH].
Qed.






Lemma flatten_errors_unfold (scope : Scope.t) :
  OutputFormatter._flatten_errors scope
  = if negb (Scope.valid scope)
    then error_entry scope
         :: flat_map OutputFormatter._flatten_errors (Scope.children scope)
    else [].
Proof. destruct scope; reflexivity. Qed.

Lemma flatten_annotations_unfold (scope : Scope.t) :
  OutputFormatter._flatten_annotations scope
  = if negb (truthy (Scope.error scope))
    then match Scope.annotation scope with
         | Some annotation => [annotation_entry scope annotation]
         | None => []
         end
         ++ flat_map OutputFormatter._flatten_annotations (Scope.children scope)
    else [].
Proof. destruct scope; reflexivity. Qed.







Example basic_ex :
  OutputFormatter.basic example_tree
  = [("valid", JBool true);
     ("annotations",
      JArray [JObject [("instanceLocation", JString "");
                       ("keywordLocation", JString "/title");
                       ("absoluteKeywordLocation", JString "https://example.com/a#/title");
                       ("annotation", JString "A")]])].
Proof. vm_compute. reflexivity. Qed.

Example basic_errors_ex :
  OutputFormatter.basic example_failing_tree
  = [("valid", JBool false);
     ("errors",
      JArray [JObject [("instanceLocation", JString "");
                       ("keywordLocation", JString "");
                       ("absoluteKeywordLocation", JString "https://example.com/a#");
                       ("error", JNull)];
              JObject [("instanceLocation", JString "");
                       ("keywordLocation", JString "/type");
                       ("absoluteKeywordLocation", JString "https://example.com/a#/type");
                       ("error", JString "The value must be of type ['object']")]])].
Proof. vm_compute. reflexivity. Qed.

(** ** [$dynamicRef] *)

#[local] Set Warnings "-clear-no-such-hyp".

Lemma get_schema_lookup (catalogue : Catalogue) (u : URI) :
  get_schema catalogue u
  = match schemas catalogue !! u with
    | Some schema => Return schema
    | None => Raise CatalogueError
    end.
Proof. reflexivity. Qed.

Lemma stack_unfold (scope : Scope.t) :
  stack scope
  = scope :: match Scope.parent scope with
             | Some parent => stack parent
             | None => []
             end.
Proof. destruct scope; reflexivity. Qed.

Lemma walk_walk_stack (catalogue : Catalogue) (fragment : string) :
  forall scope checked_uris refschema,
    DynamicRefKeyword.walk catalogue fragment scope checked_uris refschema
    = Return (walk_stack catalogue fragment (stack scope) checked_uris refschema).
Proof.
  fix rec 1. intros scope checked_uris refschema.
  rewrite stack_unfold.
  destruct scope as [sch p ip au e a ch [parent|]]; simpl;
    unfold scope_base, yields, scope_base; simpl;
    destruct (base_uri sch) as [base|]; simpl; try reflexivity;
    try apply rec.
  - destruct (decide (base ∈ checked_uris)); [apply rec|].
    rewrite get_schema_lookup.
    destruct (schemas catalogue !! uri.resolve_fragment fragment base) as [found|];
      [|apply rec].
    destruct (DynamicRefKeyword.anchor_matches found fragment); apply rec.
  - destruct (decide (base ∈ checked_uris)); [reflexivity|].
    rewrite get_schema_lookup.
    destruct (schemas catalogue !! uri.resolve_fragment fragment base) as [found|];
      [|reflexivity].
    destruct (DynamicRefKeyword.anchor_matches found fragment); reflexivity.
Qed.


Lemma base_uris_cons_some (scope : Scope.t) (scopes : list Scope.t) (base : URI) :
  scope_base scope = Some base ->
  base_uris (scope :: scopes) = {[base]} ∪ base_uris scopes.
Proof. unfold base_uris. simpl. intros ->. reflexivity. Qed.

Lemma base_uris_cons_none (scope : Scope.t) (scopes : list Scope.t) :
  scope_base scope = None -> base_uris (scope :: scopes) = base_uris scopes.
Proof. unfold base_uris. simpl. intros ->. reflexivity. Qed.


Lemma walk_stack_no_match (catalogue : Catalogue) (fragment : string)
    (scopes : list Scope.t) :
  (forall s', s' ∈ scopes -> yields catalogue fragment s' = None) ->
  forall checked refschema,
    walk_stack catalogue fragment scopes checked refschema = refschema.
Proof.
  induction scopes as [|s rest IH]; intros Hnone checked refschema; simpl;
    [reflexivity|].
  assert (Hrest : forall s', s' ∈ rest -> yields catalogue fragment s' = None).
  { intros s' Hin. apply Hnone. apply elem_of_cons. auto. }
  rewrite (Hnone s) by (apply elem_of_cons; auto).
  destruct (scope_base s) as [b|]; [|apply IH; exact Hrest].
  destruct (decide (b ∈ checked)); apply IH; exact Hrest.
Qed.

(** The bubble-up rule itself: the outermost scope that yields a match
    decides, provided its base URI does not occur further in. *)
Lemma walk_stack_outermost_fresh (catalogue : Catalogue) (fragment : string)
    (s : Scope.t) (outer : list Scope.t) (b : URI) (found : JSONSchema) :
  scope_base s = Some b ->
  yields catalogue fragment s = Some found ->
  (forall s', s' ∈ outer -> yields catalogue fragment s' = None) ->
  forall inner checked refschema,
    b ∉ checked -> b ∉ base_uris inner ->
    walk_stack catalogue fragment (inner ++ s :: outer) checked refschema = Some found.
Proof.
  intros Hb Hy Hnone. induction inner as [|s0 inner IH]; intros checked refschema Hc Hi.
  - simpl. rewrite Hb. destruct (decide (b ∈ checked)); [contradiction|].
    rewrite Hy. apply walk_stack_no_match. exact Hnone.
  - simpl. destruct (scope_base s0) as [b0|] eqn:Hb0.
    + rewrite (base_uris_cons_some _ _ _ Hb0) in Hi.
      destruct (decide (b0 ∈ checked)); apply IH; set_solver.
    + rewrite (base_uris_cons_none _ _ Hb0) in Hi. apply IH; assumption.
Qed.

Lemma evaluate_outermost_fresh (self : DynamicRefKeyword.t) (catalogue : Catalogue)
    (instance : JSON) (scope : Scope.t)
    (inner : list Scope.t) (s : Scope.t) (outer : list Scope.t)
    (b : URI) (found : JSONSchema) :
  DynamicRefKeyword.dynamic self = true ->
  stack scope = inner ++ s :: outer ->
  scope_base s = Some b -> b ∉ base_uris inner ->
  yields catalogue (DynamicRefKeyword.fragment self) s = Some found ->
  (forall s', s' ∈ outer -> yields catalogue (DynamicRefKeyword.fragment self) s' = None) ->
  outermost_match catalogue (DynamicRefKeyword.fragment self) (stack scope) = Some found /\
  DynamicRefKeyword.evaluate self catalogue instance scope
  = Return (DynamicRefKeyword.mkDelegation found instance scope).
Proof.
  intros Hdyn Hst Hb Hi Hy Hnone. split.
  - unfold outermost_match. rewrite Hst.
    assert (Houter : omap (yields catalogue (DynamicRefKeyword.fragment self)) outer = []).
    { clear Hst. induction outer as [|o outer IH]; [reflexivity|]. simpl.
      rewrite (Hnone o) by (apply elem_of_cons; auto).
      apply IH. intros s' Hin. apply Hnone. apply elem_of_cons. auto. }
    assert (Hs : omap (yields catalogue (DynamicRefKeyword.fragment self)) [s] = [found]).
    { simpl. rewrite Hy. reflexivity. }
    change (s :: outer) with ([s] ++ outer).
    rewrite !omap_app, Houter, Hs, List.app_nil_r. apply last_snoc.
  - unfold DynamicRefKeyword.evaluate. rewrite Hdyn, walk_walk_stack, Hst. simpl.
    rewrite (walk_stack_outermost_fresh catalogue _ s outer b found Hb Hy Hnone);
      [reflexivity|set_solver|exact Hi].
Qed.




Example dynamic_ref_bubble_up :
  DynamicRefKeyword.evaluate example_dynamic_ref example_catalogue JNull scope_middle
  = Return (DynamicRefKeyword.mkDelegation schema_a JNull scope_middle).
Proof. vm_compute. reflexivity. Qed.

(** ** URI validation *)

Lemma validate_raises_URIError (lib : uri.library) (rs rn af : bool) (u : URI) (e : exn) :
  uri.validate lib rs rn af u = Raise e -> e = URIError.
Proof.
  unfold uri.validate.
  repeat match goal with |- context [if ?b then _ else _] => destruct b end;
    congruence.
Qed.

Lemma validate_cases (lib : uri.library) (rs rn af : bool) (u : URI) :
  uri.validate lib rs rn af u = Return tt \/ uri.validate lib rs rn af u = Raise URIError.
Proof.
  destruct (uri.validate lib rs rn af u) as [[]|e] eqn:E; [left; reflexivity|].
  right. apply validate_raises_URIError in E as ->. reflexivity.
Qed.

Lemma validate_fragment_forbidden (lib : uri.library) (rs rn : bool) (u : URI) :
  is_Some (uri.fragment u) -> uri.validate lib rs rn false u = Raise URIError.
Proof.
  intros Hf. unfold uri.validate.
  repeat match goal with |- context [if ?b then _ else _] => destruct b eqn:? end;
    try reflexivity.
  exfalso. simpl in *.
  match goal with H : bool_decide _ = false |- _ => apply bool_decide_eq_false in H end.
  contradiction.
Qed.

(** [resolve] fixes the default target and marks the reference dynamic
    exactly when that target carries a matching [$dynamicAnchor]. *)
Lemma DynamicRefKeyword_resolve_dynamic (lib : uri.library)
    (self self' : DynamicRefKeyword.t) (catalogue : Catalogue) :
  DynamicRefKeyword.dynamic self = false ->
  DynamicRefKeyword.resolve lib self catalogue = Return self' ->
  exists default_target,
    DynamicRefKeyword.refschema self' = Some default_target /\
    DynamicRefKeyword.fragment self' = DynamicRefKeyword.fragment self /\
    DynamicRefKeyword.dynamic self'
    = DynamicRefKeyword.anchor_matches default_target (DynamicRefKeyword.fragment self).
Proof.
  intros Hd. unfold DynamicRefKeyword.resolve.
  destruct (negb (uri.has_absolute_base lib (DynamicRefKeyword.json_value self)));
    [destruct (base_uri (DynamicRefKeyword.parentschema self)); [|discriminate]|];
    simpl;
    (match goal with |- context [get_schema ?c ?u] => destruct (get_schema c u) as [d|] end;
     [|discriminate]);
    simpl; intros [= <-]; exists d; simpl; rewrite Hd;
    (repeat split; destruct (DynamicRefKeyword.anchor_matches d _); reflexivity).
Qed.

(** ** [$dynamicRef]: the constructor *)

Lemma DynamicRefKeyword_init_cases (parentschema : JSONSchema) (value : string) :
  (uri.fragment value = None ->
   DynamicRefKeyword.__init__ parentschema value = Raise JSONSchemaError)
  /\
  (forall f, uri.fragment value = Some f -> str.contains f "/" = true ->
             DynamicRefKeyword.__init__ parentschema value = Raise JSONSchemaError)
  /\
  (forall f, uri.fragment value = Some f -> str.contains f "/" = false ->
             DynamicRefKeyword.__init__ parentschema value
             = Return (DynamicRefKeyword.mk parentschema value f None false)).
Proof.
  unfold DynamicRefKeyword.__init__. repeat split.
  - intros ->. reflexivity.
  - intros f -> ->. reflexivity.
  - intros f -> ->. reflexivity.
Qed.

(** C5, the code at the failing input.  The value [#] has a fragment,
    the empty one: nothing follows the [#], there is no name, and the
    empty string is the JSON Pointer to the whole document.  The
    constructor accepts it, because its test only looks for a missing
    fragment and for a slash. *)
Theorem DynamicRefKeyword_init_empty_fragment (parentschema : JSONSchema) :
  uri.fragment "#" = Some "" /\
  re.fullmatch JSONPointer._json_pointer_re "" = true /\
  DynamicRefKeyword.__init__ parentschema "#"
  = Return (DynamicRefKeyword.mk parentschema "#" "" None false) /\
  DynamicRefKeyword.__init__ parentschema "https://example.com/tree#"
  = Return (DynamicRefKeyword.mk parentschema "https://example.com/tree#" "" None false).
Proof. repeat split. Qed.

Example dynamic_ref_init_ex :
  (raised (DynamicRefKeyword.__init__ schema_a "https://example.com/tree"),
   raised (DynamicRefKeyword.__init__ schema_a "#/$defs/node"),
   raised (DynamicRefKeyword.__init__ schema_a "tree#node"))
  = (true, true, false).
Proof. reflexivity. Qed.

(** ** [$schema] and [$id] *)

Lemma SchemaKeyword_init_cases (lib : uri.library) (parentschema : JSONSchema)
    (value : string) :
  (uri.validate lib true true true value = Raise URIError ->
   SchemaKeyword.__init__ lib parentschema value = Raise JSONSchemaError)
  /\
  (uri.validate lib true true true value = Return tt ->
   SchemaKeyword.__init__ lib parentschema value
   = Return (set_metaschema_uri parentschema value)).
Proof.
  unfold SchemaKeyword.__init__. split; intros ->; reflexivity.
Qed.

Lemma IdKeyword_init_cases (lib : uri.library) (parentschema : JSONSchema)
    (value : string) :
  (uri.validate lib false true false value = Raise URIError ->
   IdKeyword.__init__ lib parentschema value = Raise URIError)
  /\
  (uri.validate lib false true false value = Return tt ->
   uri.fragment value = None /\
   IdKeyword.__init__ lib parentschema value
   = if uri.is_absolute lib value
     then Return (set_uri parentschema value)
     else match base_uri parentschema with
          | Some base => Return (set_uri parentschema (uri.resolve lib value base))
          | None => Raise JSONSchemaError
          end).
Proof.
  unfold IdKeyword.__init__. split; intros H.
  - rewrite H. reflexivity.
  - split.
    + destruct (uri.fragment value) as [f|] eqn:Hf; [|reflexivity].
      rewrite validate_fragment_forbidden in H; [discriminate|].
      rewrite Hf. eauto.
    + rewrite H. simpl.
      destruct (uri.is_absolute lib value); simpl; [reflexivity|].
      destruct (base_uri parentschema); reflexivity.
Qed.

(** C9, the code at the failing input.  A [$id] with a fragment is
    invalid; [IdKeyword] lets the [URIError] of [validate] through,
    where [SchemaKeyword] and [VocabularyKeyword] turn it into a
    [JSONSchemaError].  This holds whatever the URI library answers. *)
Theorem IdKeyword_init_raises_URIError (lib : uri.library) (parentschema : JSONSchema) :
  IdKeyword.__init__ lib parentschema "https://example.com/schema#frag" = Raise URIError
  /\ Raise (A := JSONSchema) URIError <> Raise JSONSchemaError.
Proof.
  split; [|discriminate].
  apply (proj1 (IdKeyword_init_cases lib parentschema _)).
  apply validate_fragment_forbidden. simpl. eauto.
Qed.

(** ** [$vocabulary] *)

Lemma get_vocabulary_lookup (catalogue : Catalogue) (u : URI) :
  get_vocabulary catalogue u
  = match vocabularies catalogue !! u with
    | Some vocabulary => Return vocabulary
    | None => Raise CatalogueError
    end.
Proof. reflexivity. Qed.

Lemma opted_in_kwclasses_cons (catalogue : Catalogue) (entry : string * bool)
    (value : list (string * bool)) :
  opted_in_kwclasses catalogue (entry :: value)
  = match vocabularies catalogue !! entry.1 with
    | Some vocabulary => vocabulary_kwclasses vocabulary ∪ opted_in_kwclasses catalogue value
    | None => opted_in_kwclasses catalogue value
    end.
Proof.
  unfold opted_in_kwclasses. simpl.
  destruct (vocabularies catalogue !! entry.1); reflexivity.
Qed.

(** The loop fails exactly on a failing entry, always with
    [JSONSchemaError]; otherwise it adds the opted-in keyword classes. *)
Lemma VocabularyKeyword_loop_spec (lib : uri.library) (catalogue : Catalogue)
    (items : list (string * bool)) :
  forall kw,
    VocabularyKeyword.loop lib catalogue items kw
    = if existsb (failing_entry lib catalogue) items
      then Raise JSONSchemaError
      else Return (kw ∪ opted_in_kwclasses catalogue items).
Proof.
  induction items as [|[vocab_uri vocab_required] items IH]; intros kw.
  { simpl. unfold opted_in_kwclasses. simpl. f_equal. set_solver. }
  cbn [VocabularyKeyword.loop existsb].
  unfold failing_entry at 1, vocabulary_uri_ok. cbn [fst snd].
  destruct (validate_cases lib true true true vocab_uri) as [Hv|Hv]; rewrite Hv.
  - cbn [try_except bind raised negb orb].
    rewrite get_vocabulary_lookup, opted_in_kwclasses_cons. cbn [fst].
    destruct (vocabularies catalogue !! vocab_uri) as [vocabulary|] eqn:Hl.
    + rewrite IH. rewrite bool_decide_eq_false_2 by discriminate. cbn [andb orb].
      destruct (existsb _ items); [reflexivity|]. f_equal. set_solver.
    + rewrite bool_decide_eq_true_2 by reflexivity. cbn [andb].
      destruct vocab_required; [reflexivity|]. cbn [orb]. apply IH.
  - reflexivity.
Qed.

Lemma existsb_failing_entry (lib : uri.library) (catalogue : Catalogue)
    (value : list (string * bool)) :
  existsb (failing_entry lib catalogue) value = true <->
  exists u r, In (u, r) value /\
              (vocabulary_uri_ok lib u = false \/
               (vocabularies catalogue !! u = None /\ r = true)).
Proof.
  rewrite existsb_exists. split.
  - intros [[u r] [Hin Hf]]. exists u, r. split; [exact Hin|].
    unfold failing_entry in Hf. cbn [fst snd] in Hf.
    apply orb_true_iff in Hf as [Hf|Hf].
    + left. apply negb_true_iff. exact Hf.
    + right. apply andb_true_iff in Hf as [Hf ->].
      apply bool_decide_eq_true in Hf. auto.
  - intros (u & r & Hin & Hcase). exists (u, r). split; [exact Hin|].
    unfold failing_entry; cbn [fst snd]. destruct Hcase as [Hf|[Hf Hr]].
    + rewrite Hf. reflexivity.
    + rewrite Hr, bool_decide_eq_true_2 by exact Hf. apply orb_true_r.
Qed.



(** ** The [type] keyword *)

(** C10.  For every instance and every type name [t], [type] with the
    string [t] and [type] with the one-element array [[t]] are the same
    keyword: the constructor stores the same value, so the verdict (and
    the whole result) of evaluation is the same, and it is
    [instance.is_type(t)]. *)
Theorem TypeKeyword_str_is_singleton (instance : JSON) (t : string) :
  TypeKeyword.__init__ (TypeKeyword.of_str t)
  = TypeKeyword.__init__ (TypeKeyword.of_seq [t])
  /\
  TypeKeyword.evaluate (TypeKeyword.__init__ (TypeKeyword.of_str t)) instance
  = TypeKeyword.evaluate (TypeKeyword.__init__ (TypeKeyword.of_seq [t])) instance
  /\
  valid (TypeKeyword.evaluate (TypeKeyword.__init__ (TypeKeyword.of_str t)) instance)
  = is_type instance t.
Proof.
  split; [reflexivity|]. split; [reflexivity|].
  simpl. apply orb_false_r.
Qed.

Example type_ex :
  (valid (TypeKeyword.evaluate (TypeKeyword.__init__ (TypeKeyword.of_str "integer"))
            (JNumber (mkDecimal 10 (-1)))),
   valid (TypeKeyword.evaluate (TypeKeyword.__init__ (TypeKeyword.of_seq ["string"; "null"]))
            (JBool true)))
  = (true, false).
Proof. reflexivity. Qed.

(** ** Equality of JSON values is symmetric *)

Lemma JSON_nested_ind (P : JSON -> Prop) :
  P JNull ->
  (forall b, P (JBool b)) ->
  (forall n, P (JInteger n)) ->
  (forall d, P (JNumber d)) ->
  (forall s, P (JString s)) ->
  (forall items, List.Forall P items -> P (JArray items)) ->
  (forall members, List.Forall (fun member => P member.2) members -> P (JObject members)) ->
  forall x, P x.
Proof.
  intros Hnull Hbool Hint Hnum Hstr Harr Hobj.
  fix rec 1. intros [ |b|n|d|s|items|members].
  - exact Hnull.
  - apply Hbool.
  - apply Hint.
  - apply Hnum.
  - apply Hstr.
  - apply Harr. induction items as [|x items IH]; constructor; [apply rec|exact IH].
  - apply Hobj. induction members as [|[k v] members IH]; constructor;
      [apply rec|exact IH].
Qed.

Lemma decimal_eqb_sym (x y : Decimal) : decimal.eqb x y = decimal.eqb y x.
Proof.
  unfold decimal.eqb, decimal.compare.
  rewrite (Z.min_comm (exponent y) (exponent x)).
  rewrite (Z.compare_antisym (decimal.scaled x _) (decimal.scaled y _)).
  destruct (decimal.scaled x _ ?= decimal.scaled y _); reflexivity.
Qed.

Lemma list_eqb_sym {A : Type} (eq : A -> A -> bool) (xs : list A) :
  List.Forall (fun x => forall y, eq x y = eq y x) xs ->
  forall ys, list_eqb eq xs ys = list_eqb eq ys xs.
Proof.
  induction 1 as [|x xs Hx _ IH]; intros [|y ys]; simpl; try reflexivity.
  rewrite Hx, IH. reflexivity.
Qed.

Lemma dict_test_get {A : Type} (d : list (string * A)) (key : string) (test : A -> bool) :
  dict_test d key test
  = match dict_get d key with
    | Some v => test v
    | None => false
    end.
Proof.
  induction d as [|[k v] d IH]; simpl; [reflexivity|].
  destruct (String.eqb k key); [reflexivity|exact IH].
Qed.

Lemma dict_test_ext {A : Type} (d : list (string * A)) (key : string)
    (f g : A -> bool) :
  List.Forall (fun member => f member.2 = g member.2) d ->
  dict_test d key f = dict_test d key g.
Proof.
  induction 1 as [|[k v] d Hv _ IH]; simpl; [reflexivity|].
  destruct (String.eqb k key); [exact Hv|exact IH].
Qed.

Lemma forallb_ext_Forall {A : Type} (f g : A -> bool) (l : list A) :
  List.Forall (fun x => f x = g x) l -> forallb f l = forallb g l.
Proof.
  induction 1 as [|x l Hx _ IH]; simpl; [reflexivity|]. rewrite Hx, IH. reflexivity.
Qed.

Lemma json_eqb_sym (x : JSON) : forall y, json_eqb x y = json_eqb y x.
Proof.
  induction x as [ |a|n|c|a|xs IH|xm IH] using JSON_nested_ind; intros y.
  - destruct y; reflexivity.
  - destruct y as [ |b| | | | | ]; try reflexivity. simpl.
    destruct a, b; reflexivity.
  - destruct y; simpl; try reflexivity; apply decimal_eqb_sym.
  - destruct y; simpl; try reflexivity; apply decimal_eqb_sym.
  - destruct y as [ | | | |b| | ]; try reflexivity. simpl. apply String.eqb_sym.
  - destruct y as [ | | | | |ys| ]; try reflexivity. simpl.
    apply list_eqb_sym. exact IH.
  - destruct y as [ | | | | | |ym]; try reflexivity. simpl.
    rewrite andb_comm. f_equal.
    + apply forallb_ext_Forall. apply List.Forall_forall. intros [k w] _. simpl.
      apply dict_test_ext.
      eapply List.Forall_impl; [|exact IH]. simpl. intros [k' v] Hv. simpl in *.
      apply Hv.
    + apply forallb_ext_Forall.
      eapply List.Forall_impl; [|exact IH]. simpl. intros [k v] Hv. simpl in *.
      apply dict_test_ext. apply List.Forall_forall. intros [k' w] _. simpl.
      apply Hv.
Qed.

(** ** A well-formed value is equal to itself *)

Lemma decimal_eqb_refl (x : Decimal) : decimal.eqb x x = true.
Proof. unfold decimal.eqb, decimal.compare. rewrite Z.compare_refl. reflexivity. Qed.

Lemma list_eqb_refl {A : Type} (eq : A -> A -> bool) (xs : list A) :
  List.Forall (fun x => eq x x = true) xs -> list_eqb eq xs xs = true.
Proof.
  induction 1 as [|x xs Hx _ IH]; simpl; [reflexivity|]. rewrite Hx, IH. reflexivity.
Qed.

Lemma dict_get_NoDup {A : Type} (d : list (string * A)) (k : string) (v : A) :
  NoDup (map fst d) -> In (k, v) d -> dict_get d k = Some v.
Proof.
  induction d as [|[k' v'] d IH]; simpl; intros Hnd Hin; [contradiction|].
  apply NoDup_cons in Hnd as [Hk' Hnd].
  destruct Hin as [[= -> ->]|Hin].
  - rewrite String.eqb_refl. reflexivity.
  - destruct (String.eqb_spec k' k) as [->|_]; [|apply IH; assumption].
    exfalso. apply Hk'. apply list_elem_of_In. apply in_map_iff. exists (k, v). auto.
Qed.

Lemma json_eqb_refl (x : JSON) : well_formed x = true -> json_eqb x x = true.
Proof.
  induction x as [ |a|n|c|a|xs IH|xm IH] using JSON_nested_ind; simpl; intros Hwf.
  - reflexivity.
  - destruct a; reflexivity.
  - apply decimal_eqb_refl.
  - apply decimal_eqb_refl.
  - apply String.eqb_refl.
  - apply list_eqb_refl.
    rewrite forallb_forall in Hwf. rewrite List.Forall_forall in IH.
    apply List.Forall_forall. intros x Hx. apply IH; [exact Hx|]. apply Hwf; exact Hx.
  - apply andb_true_iff in Hwf as [Hnd Hwf]. apply bool_decide_eq_true in Hnd.
    rewrite forallb_forall in Hwf. rewrite List.Forall_forall in IH.
    apply andb_true_iff. split; apply forallb_forall; intros [k v] Hin; simpl;
      rewrite dict_test_get, (dict_get_NoDup _ _ _ Hnd Hin);
      apply (IH (k, v) Hin); apply (Hwf (k, v) Hin).
Qed.

(** ** The [uniqueItems] keyword *)

Lemma contains_snoc (uniquified : list JSON) (item x : JSON) :
  UniqueItemsKeyword.contains (uniquified ++ [item]) x
  = UniqueItemsKeyword.contains uniquified x || json_eqb item x.
Proof.
  unfold UniqueItemsKeyword.contains. rewrite existsb_app. simpl.
  rewrite orb_false_r. reflexivity.
Qed.

Lemma uniquify_length_le (instance : list JSON) :
  forall uniquified,
    (length (UniqueItemsKeyword.uniquify instance uniquified)
     <= length instance + length uniquified)%nat.
Proof.
  induction instance as [|item instance IH]; intros uniquified; simpl; [lia|].
  destruct (UniqueItemsKeyword.contains uniquified item); simpl.
  - specialize (IH uniquified). lia.
  - specialize (IH (uniquified ++ [item])). rewrite length_app in IH. simpl in IH. lia.
Qed.

Lemma fresh_items_cons (item : JSON) (instance uniquified : list JSON) :
  fresh_items (item :: instance) uniquified <->
  UniqueItemsKeyword.contains uniquified item = false /\
  fresh_items instance (uniquified ++ [item]).
Proof.
  unfold fresh_items. split.
  - intros H. split; [apply (H 0%nat item eq_refl)|].
    intros i x Hx. destruct (H (S i) x Hx) as [Hc He]. split.
    + rewrite contains_snoc, Hc. simpl. apply (He 0%nat item); [lia|reflexivity].
    + intros j y Hj Hy. apply (He (S j) y); [lia|exact Hy].
  - intros [Hc H] [|i] x Hx.
    + injection Hx as <-. split; [exact Hc|]. intros j y Hj. lia.
    + destruct (H i x Hx) as [Hc' He].
      rewrite contains_snoc in Hc'. apply orb_false_iff in Hc' as [Hc1 Hc2].
      split; [exact Hc1|]. intros [|j] y Hj Hy.
      * injection Hy as <-. exact Hc2.
      * apply (He j y); [lia|exact Hy].
Qed.

(** Nothing was dropped exactly when every item was fresh. *)
Lemma uniquify_full (instance : list JSON) :
  forall uniquified,
    length (UniqueItemsKeyword.uniquify instance uniquified)
    = (length instance + length uniquified)%nat
    <-> fresh_items instance uniquified.
Proof.
  induction instance as [|item instance IH]; intros uniquified.
  - simpl. split; [|reflexivity]. intros _ i x Hx. destruct i; discriminate.
  - rewrite fresh_items_cons. simpl.
    destruct (UniqueItemsKeyword.contains uniquified item) eqn:Hc; simpl.
    + split; [|intros [? _]; discriminate].
      pose proof (uniquify_length_le instance uniquified). lia.
    + rewrite <- IH, length_app. simpl. split.
      * intros H. split; [reflexivity|]. lia.
      * intros [_ H]. lia.
Qed.

Lemma fresh_items_distinct (instance : list JSON) :
  fresh_items instance [] <-> all_distinct instance.
Proof.
  unfold fresh_items, all_distinct. split.
  - intros H i j x y Hij Hx Hy.
    destruct (Nat.lt_total i j) as [Hlt|[Heq|Hgt]]; [|contradiction|].
    + destruct (H j y Hy) as [_ He]. apply (He i x Hlt Hx).
    + destruct (H i x Hx) as [_ He]. rewrite json_eqb_sym. apply (He j y Hgt Hy).
  - intros H i x Hx. split; [reflexivity|].
    intros j y Hj Hy. apply (H j i y x); [lia|exact Hy|exact Hx].
Qed.

(** C6.  With the value [false] the assertion passes whatever the array
    holds.  With the value [true] it passes if and only if no two
    elements of the array are equal under the sameness rule; membership
    in the list of items seen so far is that equality of values, so two
    elements that are equal as values are detected wherever they are
    stored, and a number is found again in its other notations. *)
Theorem UniqueItemsKeyword_evaluate_spec (instance : list JSON) :
  valid (UniqueItemsKeyword.evaluate false instance) = true
  /\
  (valid (UniqueItemsKeyword.evaluate true instance) = true <-> all_distinct instance)
  /\
  (forall i j x y,
      i <> j -> instance !! i = Some x -> instance !! j = Some y ->
      json_eqb x y = true ->
      valid (UniqueItemsKeyword.evaluate true instance) = false)
  /\
  (forall item uniquified,
      UniqueItemsKeyword.contains uniquified item = true <->
      exists e, In e uniquified /\ json_eqb e item = true).
Proof.
  split; [reflexivity|].
  assert (Hiff : valid (UniqueItemsKeyword.evaluate true instance) = true
                 <-> all_distinct instance).
  { unfold UniqueItemsKeyword.evaluate. simpl.
    rewrite Nat.eqb_eq, <- fresh_items_distinct, <- uniquify_full. simpl.
    rewrite Nat.add_0_r. split; intros H; symmetry; exact H. }
  split; [exact Hiff|]. split.
  - intros i j x y Hij Hx Hy Hsame.
    apply not_true_is_false. intros Hv.
    apply Hiff in Hv. rewrite (Hv i j x y Hij Hx Hy) in Hsame. discriminate.
  - intros item uniquified. unfold UniqueItemsKeyword.contains.
    apply existsb_exists.
Qed.

Lemma UniqueItemsKeyword_evaluate_spec_witness :
  json_eqb (JArray [JInteger 1]) (JArray [JNumber (mkDecimal 10 (-1))]) = true /\
  valid (UniqueItemsKeyword.evaluate true
           [JArray [JInteger 1]; JString "a"; JArray [JNumber (mkDecimal 10 (-1))]])
  = false.
Proof.
  split; [reflexivity|].
  pose proof (UniqueItemsKeyword_evaluate_spec
                [JArray [JInteger 1]; JString "a"; JArray [JNumber (mkDecimal 10 (-1))]])
    as (_ & _ & H & _).
  apply (H 0%nat 2%nat (JArray [JInteger 1]) (JArray [JNumber (mkDecimal 10 (-1))]));
    [discriminate|reflexivity|reflexivity|reflexivity].
Defined.

Example unique_items_ex :
  (valid (UniqueItemsKeyword.evaluate true [JBool true; JInteger 1; JString "1"]),
   valid (UniqueItemsKeyword.evaluate true
            [JObject [("a", JInteger 1); ("b", JNull)];
             JObject [("b", JNull); ("a", JNumber (mkDecimal 100 (-2)))]]),
   valid (UniqueItemsKeyword.evaluate false [JNull; JNull]))
  = (true, false, true).
Proof. reflexivity. Qed.

(** ** Exact decimal arithmetic *)

Lemma ten_pow_pos (e : Z) : (0 < (10 # 1) ^ e)%Q.
Proof. apply Qpower_0_lt. reflexivity. Qed.

Lemma ten_pow_nonzero (e : Z) : ~ ((10 # 1) ^ e == 0)%Q.
Proof. intros H. pose proof (ten_pow_pos e) as Hp. rewrite H in Hp. inversion Hp. Qed.

(** Bringing a decimal to a smaller exponent keeps its value. *)
Lemma scaled_Qvalue (d : Decimal) (e : Z) :
  (e <= exponent d)%Z ->
  (inject_Z (decimal.scaled d e) * (10 # 1) ^ e == Qvalue d)%Q.
Proof.
  intros He. unfold decimal.scaled, Qvalue.
  rewrite inject_Z_mult, Zpower_Qpower by lia.
  change (inject_Z 10) with (10 # 1).
  rewrite <- Qmult_assoc, <- Qpower_plus by discriminate.
  replace (exponent d - e + e)%Z with (exponent d) by lia. reflexivity.
Qed.

Lemma Qcompare_scale (a b : Z) (p : Q) :
  (0 < p)%Q -> (inject_Z a * p ?= inject_Z b * p)%Q = (a ?= b)%Z.
Proof.
  intros Hp. destruct (a ?= b)%Z eqn:E.
  - apply Z.compare_eq in E. subst. apply Qeq_alt. reflexivity.
  - apply Qlt_alt. apply Qmult_lt_compat_r; [exact Hp|].
    rewrite <- Zlt_Qlt. exact E.
  - apply Qgt_alt. apply Qmult_lt_compat_r; [exact Hp|].
    rewrite <- Zlt_Qlt. apply Z.gt_lt. exact E.
Qed.

Lemma compare_Qvalue (x y : Decimal) :
  decimal.compare x y = (Qvalue x ?= Qvalue y)%Q.
Proof.
  unfold decimal.compare.
  set (e := Z.min (exponent x) (exponent y)).
  rewrite <- (scaled_Qvalue x e), <- (scaled_Qvalue y e) by (subst e; lia).
  symmetry. apply Qcompare_scale. apply ten_pow_pos.
Qed.

Lemma leb_Qvalue (x y : Decimal) :
  decimal.leb x y = true <-> (Qvalue x <= Qvalue y)%Q.
Proof.
  unfold decimal.leb. rewrite compare_Qvalue, Qle_alt.
  destruct (Qvalue x ?= Qvalue y)%Q; split; congruence.
Qed.

Lemma ltb_Qvalue (x y : Decimal) :
  decimal.ltb x y = true <-> (Qvalue x < Qvalue y)%Q.
Proof.
  unfold decimal.ltb. rewrite compare_Qvalue, Qlt_alt.
  destruct (Qvalue x ?= Qvalue y)%Q; split; congruence.
Qed.

Lemma eqb_Qvalue (x y : Decimal) :
  decimal.eqb x y = true <-> (Qvalue x == Qvalue y)%Q.
Proof.
  unfold decimal.eqb. rewrite compare_Qvalue, Qeq_alt.
  destruct (Qvalue x ?= Qvalue y)%Q; split; congruence.
Qed.

Lemma Qvalue_zero_coefficient (e : Z) : (Qvalue (mkDecimal 0 e) == 0)%Q.
Proof. unfold Qvalue. simpl. apply Qmult_0_l. Qed.

(** The remainder is zero exactly when the quotient is an integer. *)
Lemma rem_zero_Qvalue (x y : Decimal) :
  (0 < Qvalue y)%Q ->
  decimal.eqb (decimal.rem x y) (decimal.of_Z 0) = true <->
  exists k : Z, (Qvalue x == inject_Z k * Qvalue y)%Q.
Proof.
  intros Hy. rewrite eqb_Qvalue.
  unfold decimal.rem, decimal.of_Z.
  set (e := Z.min (exponent x) (exponent y)).
  pose proof (scaled_Qvalue x e ltac:(subst e; lia)) as Hx.
  pose proof (scaled_Qvalue y e ltac:(subst e; lia)) as Hys.
  set (a := decimal.scaled x e) in *. set (b := decimal.scaled y e) in *.
  assert (Hb : b <> 0%Z).
  { intros Hb. rewrite Hb in Hys. rewrite <- Hys in Hy.
    rewrite Qmult_0_l in Hy. inversion Hy. }
  rewrite (Qvalue_zero_coefficient 0).
  assert (Hrem : (Qvalue {| coefficient := Z.rem a b; exponent := e |} == 0)%Q
                 <-> Z.rem a b = 0%Z).
  { unfold Qvalue. simpl. split.
    - intros H. apply Qmult_integral in H as [H|H].
      + apply (inject_Z_injective _ 0%Z). exact H.
      + exfalso. exact (ten_pow_nonzero e H).
    - intros ->. apply Qmult_0_l. }
  rewrite Hrem, (Z.rem_divide a b Hb). split.
  - intros [k Hk]. exists k. rewrite <- Hx, <- Hys, Hk, inject_Z_mult. ring.
  - intros [k Hk]. exists k. rewrite <- Hx, <- Hys in Hk.
    apply inject_Z_injective. rewrite inject_Z_mult.
    apply (Qmult_inj_r _ _ ((10 # 1) ^ e) (ten_pow_nonzero e)).
    rewrite Hk. ring.
Qed.

(** C7.  For every number instance and every positive divisor,
    [multipleOf] passes if and only if the quotient of the two numbers
    is an integer, that is, the exact remainder is zero; [maximum],
    [exclusiveMaximum], [minimum] and [exclusiveMinimum] compare the
    numbers that instance and bound denote, so that notations of one
    number (1, 1.0, 1.00) compare equal. *)
Theorem numeric_keywords_exact (bound instance : Decimal) :
  ((0 < Qvalue bound)%Q ->
   (valid (MultipleOfKeyword.evaluate bound instance) = true <->
    exists k : Z, (Qvalue instance == inject_Z k * Qvalue bound)%Q))
  /\
  (valid (MaximumKeyword.evaluate bound instance) = true
   <-> (Qvalue instance <= Qvalue bound)%Q)
  /\
  (valid (ExclusiveMaximumKeyword.evaluate bound instance) = true
   <-> (Qvalue instance < Qvalue bound)%Q)
  /\
  (valid (MinimumKeyword.evaluate bound instance) = true
   <-> (Qvalue bound <= Qvalue instance)%Q)
  /\
  (valid (ExclusiveMinimumKeyword.evaluate bound instance) = true
   <-> (Qvalue bound < Qvalue instance)%Q)
  /\
  ((Qvalue instance == Qvalue bound)%Q ->
   valid (MaximumKeyword.evaluate bound instance) = true /\
   valid (MinimumKeyword.evaluate bound instance) = true /\
   valid (ExclusiveMaximumKeyword.evaluate bound instance) = false /\
   valid (ExclusiveMinimumKeyword.evaluate bound instance) = false).
Proof.
  split; [intros Hpos; apply rem_zero_Qvalue; exact Hpos|].
  split; [apply leb_Qvalue|]. split; [apply ltb_Qvalue|].
  split; [apply leb_Qvalue|]. split; [apply ltb_Qvalue|].
  intros Heq. simpl. repeat split.
  - apply leb_Qvalue. rewrite Heq. apply Qle_refl.
  - apply leb_Qvalue. rewrite Heq. apply Qle_refl.
  - apply not_true_is_false. intros H. apply ltb_Qvalue in H.
    rewrite Heq in H. exact (Qlt_irrefl _ H).
  - apply not_true_is_false. intros H. apply ltb_Qvalue in H.
    rewrite Heq in H. exact (Qlt_irrefl _ H).
Qed.

Lemma numeric_keywords_exact_witness :
  (0 < Qvalue (mkDecimal 1 (-1)))%Q /\
  valid (MultipleOfKeyword.evaluate (mkDecimal 1 (-1)) (mkDecimal 3 (-1))) = true.
Proof.
  split; [reflexivity|].
  apply (proj1 (numeric_keywords_exact (mkDecimal 1 (-1)) (mkDecimal 3 (-1))));
    [reflexivity|].
  exists 3%Z. reflexivity.
Defined.

Example one_is_one_point_zero :
  (valid (MaximumKeyword.evaluate (mkDecimal 100 (-2)) (mkDecimal 1 0)),
   valid (MinimumKeyword.evaluate (mkDecimal 10 (-1)) (mkDecimal 1 0)),
   valid (ExclusiveMaximumKeyword.evaluate (mkDecimal 100 (-2)) (mkDecimal 10 (-1))),
   valid (MultipleOfKeyword.evaluate (mkDecimal 25 (-1)) (mkDecimal 75 (-1))),
   valid (MultipleOfKeyword.evaluate (mkDecimal 2 0) (mkDecimal 75 (-1))))
  = (true, true, false, true, false).
Proof. reflexivity. Qed.

(* ===================================================================== *)
(** * Part II, continued. More of the sources                             *)
(* ===================================================================== *)

(** ** JSON pointers: construction *)

Lemma join_app (a b : list string) : str.join (a ++ b) = str.join a +:+ str.join b.
Proof.
  unfold str.join. induction a as [|x a IH]; simpl; [reflexivity|].
  rewrite IH, str_app_assoc. reflexivity.
Qed.

Lemma render_tokens_app (a b : list string) :
  render_tokens (a ++ b) = render_tokens a +:+ render_tokens b.
Proof. unfold render_tokens. rewrite map_app. apply join_app. Qed.

Lemma init_str_keys (keys : list string) :
  JSONPointer.__init__ [JSONPointer.of_str (JSONPointer.__str__ (JSONPointer.mk keys))]
  = Return (JSONPointer.mk keys).
Proof.
  rewrite str_render_tokens, init_render_tokens, map_unescape_escape; [reflexivity|].
  apply List.Forall_forall. intros t Ht. apply in_map_iff in Ht as [k [<- _]].
  apply token_escape.
Qed.

(** X1.  Extending a pointer by a key never fails: the new pointer has
    the key appended, is one longer, renders as the old rendering
    followed by a slash and the escaped key, and parses back from that
    rendering. *)
Theorem JSONPointer_truediv_spec (P : JSONPointer.t) (key : string) :
  exists Q,
    JSONPointer.__truediv__ P key = Return Q /\
    JSONPointer._keys Q = JSONPointer._keys P ++ [key] /\
    JSONPointer.__len__ Q = S (JSONPointer.__len__ P) /\
    JSONPointer.__str__ Q
    = JSONPointer.__str__ P +:+ "/" +:+ JSONPointer.escape key /\
    JSONPointer.__init__ [JSONPointer.of_str (JSONPointer.__str__ Q)] = Return Q.
Proof.
  exists (JSONPointer.mk (JSONPointer._keys P ++ [key])).
  split; [reflexivity|]. split; [reflexivity|]. split.
  { unfold JSONPointer.__len__. simpl. rewrite length_app. simpl. lia. }
  split; [|apply init_str_keys].
  unfold JSONPointer.__str__. simpl. rewrite map_app, join_app. simpl.
  unfold str.join at 2. simpl. rewrite str_app_nil_r. reflexivity.
Qed.

Lemma init_loop_render (toks : list string) (keys : list string)
    (values : list JSONPointer.arg) :
  Forall token toks ->
  JSONPointer.init_loop keys (JSONPointer.of_str (render_tokens toks) :: values)
  = JSONPointer.init_loop (keys ++ map JSONPointer.unescape toks) values.
Proof.
  intros Htoks. simpl.
  assert (Hm : rfc6901 (render_tokens toks)) by (apply rfc6901_tokens; eauto).
  unfold rfc6901 in Hm. rewrite Hm. simpl.
  rewrite split_render_tokens; [reflexivity|].
  eapply Forall_impl; [exact Htoks|]. intros t Ht. apply token_no_slash. exact Ht.
Qed.

(** X2.  For two strings that conform to the RFC 6901 syntax, the
    pointer built from both arguments is the pointer parsed from their
    concatenation. *)
Theorem JSONPointer_init_concat (S1 S2 : string) :
  rfc6901 S1 -> rfc6901 S2 ->
  JSONPointer.__init__ [JSONPointer.of_str S1; JSONPointer.of_str S2]
  = JSONPointer.__init__ [JSONPointer.of_str (S1 +:+ S2)]
  /\ raised (JSONPointer.__init__ [JSONPointer.of_str (S1 +:+ S2)]) = false.
Proof.
  intros H1 H2.
  apply rfc6901_tokens in H1 as [toks1 [Ht1 ->]].
  apply rfc6901_tokens in H2 as [toks2 [Ht2 ->]].
  rewrite <- render_tokens_app.
  unfold JSONPointer.__init__.
  rewrite !init_loop_render by (try apply Forall_app; auto).
  simpl. rewrite map_app. split; reflexivity.
Qed.

Lemma JSONPointer_init_concat_witness :
  rfc6901 "/a~1b" /\ rfc6901 "/c/0" /\
  JSONPointer.__init__ [JSONPointer.of_str "/a~1b"; JSONPointer.of_str "/c/0"]
  = JSONPointer.__init__ [JSONPointer.of_str ("/a~1b" +:+ "/c/0")].
Proof.
  split; [vm_compute; reflexivity|]. split; [vm_compute; reflexivity|].
  apply (proj1 (JSONPointer_init_concat "/a~1b" "/c/0"
                  ltac:(vm_compute; reflexivity) ltac:(vm_compute; reflexivity))).
Defined.

Lemma init_loop_raised (values : list JSONPointer.arg) :
  forall keys,
    match JSONPointer.init_loop keys values with
    | Return _ =>
        forall s, In (JSONPointer.of_str s) values -> rfc6901 s
    | Raise e =>
        e = JSONPointerError /\
        exists s, In (JSONPointer.of_str s) values /\ ~ rfc6901 s
    end.
Proof.
  induction values as [|[s|ks|p] values IH]; intros keys; simpl.
  - intros s [].
  - destruct (re.fullmatch JSONPointer._json_pointer_re s) eqn:Hm; simpl.
    + specialize (IH (keys ++ map JSONPointer.unescape (tail (str.split s "/")))).
      destruct (JSONPointer.init_loop _ values).
      * intros s' [[= <-]|Hin]; [exact Hm|auto].
      * destruct IH as [-> [s' [Hin Hs']]]. split; [reflexivity|]. eauto.
    + split; [reflexivity|]. exists s. split; [auto|].
      unfold rfc6901. rewrite Hm. discriminate.
  - specialize (IH (keys ++ ks)). destruct (JSONPointer.init_loop _ values).
    + intros s' [Hin|Hin]; [discriminate|auto].
    + destruct IH as [-> [s' [Hin Hs']]]. split; [reflexivity|]. eauto.
  - specialize (IH (keys ++ JSONPointer._keys p)).
    destruct (JSONPointer.init_loop _ values).
    + intros s' [Hin|Hin]; [discriminate|auto].
    + destruct IH as [-> [s' [Hin Hs']]]. split; [reflexivity|]. eauto.
Qed.

(** X3.  The constructor fails exactly when one of its string arguments
    does not conform to the RFC 6901 syntax, and then with
    [JSONPointerError]; arguments that are key sequences or pointers
    never make it fail. *)
Theorem JSONPointer_init_raises (values : list JSONPointer.arg) :
  (raised (JSONPointer.__init__ values) = true <->
   exists s, In (JSONPointer.of_str s) values /\ ~ rfc6901 s)
  /\
  (forall e, JSONPointer.__init__ values = Raise e -> e = JSONPointerError).
Proof.
  unfold JSONPointer.__init__.
  pose proof (init_loop_raised values []) as H.
  destruct (JSONPointer.init_loop [] values) as [P|e]; simpl.
  - split; [|discriminate]. split; [discriminate|].
    intros [s [Hin Hs]]. exfalso. apply Hs. apply H. exact Hin.
  - destruct H as [-> Hex]. split; [|intros e [= <-]; reflexivity].
    split; [intros _; exact Hex|reflexivity].
Qed.

(** X6.  Rendering is injective: two pointers are equal, and compare
    equal with [==], exactly when their renderings are the same
    string. *)
Theorem JSONPointer_str_injective (P Q : JSONPointer.t) :
  (JSONPointer.__str__ P = JSONPointer.__str__ Q -> P = Q)
  /\
  (JSONPointer.__eq__ P Q = true <-> JSONPointer.__str__ P = JSONPointer.__str__ Q).
Proof.
  assert (Hinj : JSONPointer.__str__ P = JSONPointer.__str__ Q -> P = Q).
  { destruct P as [kp], Q as [kq]. intros H.
    pose proof (init_str_keys kp) as Hp. rewrite H, init_str_keys in Hp.
    injection Hp as ->. reflexivity. }
  split; [exact Hinj|]. unfold JSONPointer.__eq__. rewrite bool_decide_eq_true. split.
  - destruct P, Q. simpl. intros ->. reflexivity.
  - intros H. rewrite (Hinj H). reflexivity.
Qed.

Lemma JSONPointer_str_injective_witness :
  JSONPointer.__str__ (JSONPointer.mk ["a/b"; "~"])
  = JSONPointer.__str__ (JSONPointer.mk ["a/b"; "~"]) /\
  JSONPointer.mk ["a/b"; "~"] = JSONPointer.mk ["a/b"; "~"].
Proof.
  split; [reflexivity|].
  apply (proj1 (JSONPointer_str_injective (JSONPointer.mk ["a/b"; "~"])
                  (JSONPointer.mk ["a/b"; "~"]))).
  reflexivity.
Defined.

Lemma JSONPointer_init_raises_witness :
  raised (JSONPointer.__init__
            [JSONPointer.of_keys ["a"]; JSONPointer.of_str "/b~2"]) = true.
Proof.
  apply (proj1 (JSONPointer_init_raises
                  [JSONPointer.of_keys ["a"]; JSONPointer.of_str "/b~2"])).
  exists "/b~2". split; [right; left; reflexivity|].
  unfold rfc6901. vm_compute. discriminate.
Defined.

(** ** JSON pointers: evaluation *)

Lemma resolve_app (keys1 keys2 : list string) :
  forall value,
    JSONPointer.resolve value (keys1 ++ keys2)
    = bind (JSONPointer.resolve value keys1)
        (fun v => JSONPointer.resolve v keys2).
Proof.
  induction keys1 as [|key keys1 IH]; intros value; simpl; [reflexivity|].
  destruct value as [ |b|n|d|s|items|members]; simpl; try reflexivity.
  - destruct (re.fullmatch JSONPointer._array_index_re key); [|reflexivity].
    destruct (items !! N.to_nat (str.int key)); [apply IH|reflexivity].
  - destruct (dict_get members key); [apply IH|reflexivity].
Qed.

(** X4.  Evaluation composes: the pointer built from [P] and [Q]
    evaluates like [P] followed by [Q] on the value [P] reaches, and
    fails as soon as either step fails. *)
Theorem JSONPointer_evaluate_compose (P Q : JSONPointer.t) (document : JSON) :
  exists R,
    JSONPointer.__init__ [JSONPointer.of_pointer P; JSONPointer.of_pointer Q] = Return R /\
    JSONPointer.evaluate R document
    = bind (JSONPointer.evaluate P document) (fun v => JSONPointer.evaluate Q v).
Proof.
  exists (JSONPointer.mk (JSONPointer._keys P ++ JSONPointer._keys Q)).
  split; [reflexivity|]. unfold JSONPointer.evaluate. simpl. apply resolve_app.
Qed.

(** The decimal numeral of a number. *)
Lemma digit_char_value (d : N) : (d < 10)%N -> str.digit (digit_char d) = d.
Proof.
  intros Hd. unfold str.digit, digit_char.
  rewrite N_ascii_embedding by lia. lia.
Qed.

Lemma digit_char_is_0_9 (d : N) : (d < 10)%N -> JSONPointer.is_0_9 (digit_char d) = true.
Proof.
  intros Hd. unfold JSONPointer.is_0_9, digit_char.
  rewrite N_ascii_embedding by lia.
  apply andb_true_iff. split; apply N.leb_le; lia.
Qed.

Lemma digit_char_is_1_9 (d : N) :
  (0 < d < 10)%N -> JSONPointer.is_1_9 (digit_char d) = true.
Proof.
  intros Hd. unfold JSONPointer.is_1_9, digit_char.
  rewrite N_ascii_embedding by lia.
  apply andb_true_iff. split; apply N.leb_le; lia.
Qed.

Lemma numeral_go_acc (fuel : nat) :
  forall n acc, numeral_go fuel n acc = numeral_go fuel n EmptyString +:+ acc.
Proof.
  induction fuel as [|fuel IH]; intros n acc; simpl; [reflexivity|].
  destruct (n <? 10)%N; [reflexivity|].
  rewrite (IH _ (String _ acc)), (IH _ (String _ EmptyString)), str_app_assoc.
  reflexivity.
Qed.

Lemma int_from_app (s t : string) :
  forall acc, str.int_from acc (s +:+ t) = str.int_from (str.int_from acc s) t.
Proof.
  induction s as [|c s IH]; intros acc; [reflexivity|].
  rewrite str_app_cons. simpl. apply IH.
Qed.

Lemma all_digits_app (s t : string) :
  all_digits (s +:+ t) = all_digits s && all_digits t.
Proof.
  induction s as [|c s IH]; [reflexivity|].
  rewrite str_app_cons. simpl. rewrite IH, andb_assoc. reflexivity.
Qed.

Lemma numeral_go_int (fuel : nat) :
  forall n, (N.to_nat n < fuel)%nat ->
            str.int (numeral_go fuel n EmptyString) = n.
Proof.
  induction fuel as [|fuel IH]; intros n Hn; [lia|]. simpl.
  destruct (n <? 10)%N eqn:Hlt.
  - apply N.ltb_lt in Hlt. unfold str.int. simpl.
    rewrite N.mod_small by exact Hlt. rewrite digit_char_value by exact Hlt. lia.
  - apply N.ltb_ge in Hlt. rewrite numeral_go_acc.
    unfold str.int. rewrite int_from_app. fold (str.int (numeral_go fuel (n / 10) EmptyString)).
    assert (Hq : (n / 10 < n)%N) by (apply N.div_lt; lia).
    rewrite IH by lia. simpl.
    rewrite digit_char_value by (apply N.mod_lt; lia).
    pose proof (N.div_mod n 10 ltac:(lia)). lia.
Qed.

Lemma numeral_go_canonical (fuel : nat) :
  forall n, (N.to_nat n < fuel)%nat -> (0 < n)%N ->
            exists c rest,
              numeral_go fuel n EmptyString = String c rest /\
              JSONPointer.is_1_9 c = true /\ all_digits rest = true.
Proof.
  induction fuel as [|fuel IH]; intros n Hn Hpos; [lia|]. simpl.
  destruct (n <? 10)%N eqn:Hlt.
  - apply N.ltb_lt in Hlt. exists (digit_char (n mod 10)), EmptyString.
    split; [reflexivity|]. split; [|reflexivity].
    rewrite N.mod_small by exact Hlt. apply digit_char_is_1_9. lia.
  - apply N.ltb_ge in Hlt. rewrite numeral_go_acc.
    assert (Hq : (n / 10 < n)%N) by (apply N.div_lt; lia).
    assert (Hq0 : (0 < n / 10)%N).
    { apply N.div_str_pos. lia. }
    destruct (IH (n / 10)%N ltac:(lia) Hq0) as (c & rest & -> & Hc & Hrest).
    exists c, (rest +:+ String (digit_char (n mod 10)) EmptyString).
    split; [reflexivity|]. split; [exact Hc|].
    rewrite all_digits_app, Hrest. simpl.
    rewrite digit_char_is_0_9 by (apply N.mod_lt; lia). reflexivity.
Qed.

Lemma numeral_canonical (n : N) : canonical_index (numeral n) = true.
Proof.
  destruct (N.eq_dec n 0%N) as [->|Hn]; [reflexivity|].
  destruct (numeral_go_canonical (S (N.to_nat n)) n ltac:(lia) ltac:(lia))
    as (c & rest & Heq & Hc & Hrest).
  unfold numeral. rewrite Heq. simpl.
  rewrite (is_1_9_not_zero _ Hc), Hc, Hrest. reflexivity.
Qed.

(** X5.  Indexing by numeral: for every array and every position [n]
    within it, the pointer whose one token is the decimal numeral of
    [n] resolves to the element at [n]; past the end it raises
    [JSONPointerError].  The token read back with [int] is [n]. *)
Theorem JSONPointer_evaluate_numeral (items : list JSON) (n : N) :
  str.int (numeral n) = n /\
  re.fullmatch JSONPointer._array_index_re (numeral n) = true /\
  JSONPointer.evaluate (JSONPointer.mk [numeral n]) (JArray items)
  = match items !! N.to_nat n with
    | Some item => Return item
    | None => Raise JSONPointerError
    end.
Proof.
  assert (Hint : str.int (numeral n) = n) by (apply numeral_go_int; lia).
  split; [exact Hint|].
  split; [rewrite array_index_re_canonical; apply numeral_canonical|].
  unfold JSONPointer.evaluate. simpl.
  rewrite array_index_re_canonical, numeral_canonical, Hint.
  destruct (items !! N.to_nat n); reflexivity.
Qed.

Example numeral_ex : (numeral 0, numeral 7, numeral 120) = ("0", "7", "120").
Proof. vm_compute. reflexivity. Qed.

(** ** JSON pointers: indexing and slicing *)

Lemma init_of_keys (keys : list string) :
  JSONPointer.__init__ [JSONPointer.of_keys keys] = Return (JSONPointer.mk keys).
Proof. unfold JSONPointer.__init__. simpl. reflexivity. Qed.

Lemma slice_split {A : Type} (l : list A) (i : Z) :
  slice.of_list l (slice.mk None (Some i)) ++ slice.of_list l (slice.mk (Some i) None) = l.
Proof.
  unfold slice.of_list. simpl.
  set (len := Z.of_nat (length l)).
  set (a := if Z.ltb i 0 then Z.max (i + len) 0 else Z.min i len).
  assert (Ha : (0 <= a <= len)%Z).
  { subst a. destruct (Z.ltb_spec i 0); lia. }
  rewrite Z.sub_0_r. change (Z.to_nat 0) with 0%nat. rewrite drop_0.
  rewrite (take_ge (drop (Z.to_nat a) l)).
  - apply take_drop.
  - rewrite length_drop. subst len. lia.
Qed.

(** X7.  Slicing splits a pointer: for every pointer [P] and every
    integer [i], negative or out of range included, [P[:i]] and [P[i:]]
    are pointers, the pointer built from the two is equal to [P], and
    evaluating [P[:i]] and then [P[i:]] is evaluating [P]. *)
Theorem JSONPointer_slice_split (P : JSONPointer.t) (i : Z) :
  exists front back,
    JSONPointerItems.getslice P (slice.mk None (Some i)) = Return front /\
    JSONPointerItems.getslice P (slice.mk (Some i) None) = Return back /\
    (exists R,
        JSONPointer.__init__ [JSONPointer.of_pointer front; JSONPointer.of_pointer back]
        = Return R /\
        JSONPointer.__eq__ R P = true) /\
    (forall document,
        JSONPointer.evaluate P document
        = bind (JSONPointer.evaluate front document)
            (fun v => JSONPointer.evaluate back v)).
Proof.
  unfold JSONPointerItems.getslice. rewrite !init_of_keys.
  eexists; eexists. split; [reflexivity|]. split; [reflexivity|].
  pose proof (slice_split (JSONPointer._keys P) i) as Hsplit.
  split.
  - eexists. split; [reflexivity|].
    unfold JSONPointer.__eq__. simpl. rewrite ?app_nil_r, Hsplit.
    apply bool_decide_eq_true. reflexivity.
  - intros document. unfold JSONPointer.evaluate. simpl.
    rewrite <- resolve_app, Hsplit. reflexivity.
Qed.

Lemma slice_item_last {A : Type} (l : list A) (x : A) :
  slice.item (l ++ [x]) (-1) = Some x.
Proof.
  unfold slice.item. simpl. rewrite length_app. simpl.
  destruct (Z.leb_spec 0 (-1 + Z.of_nat (length l + 1))); [|lia].
  replace (Z.to_nat (-1 + Z.of_nat (length l + 1))) with (length l + 0)%nat by lia.
  rewrite lookup_app_r by lia.
  replace (length l + 0 - length l)%nat with 0%nat by lia. reflexivity.
Qed.

Lemma slice_init {A : Type} (l : list A) (x : A) :
  slice.of_list (l ++ [x]) (slice.mk None (Some (-1)%Z)) = l.
Proof.
  unfold slice.of_list. simpl. rewrite length_app. simpl.
  rewrite Z.sub_0_r. rewrite drop_0.
  replace (Z.to_nat (Z.max (-1 + Z.of_nat (length l + 1)) 0)) with (length l) by lia.
  apply take_app_length.
Qed.

(** X8.  Extending and stepping back: for every pointer [P] and key,
    [P / key] has one key more than [P], its last key [(P / key)[-1]]
    is [key] unchanged, and its parent [(P / key)[:-1]] is equal to
    [P]. *)
Theorem JSONPointer_truediv_last_parent (P : JSONPointer.t) (key : string) :
  exists child,
    JSONPointer.__truediv__ P key = Return child /\
    JSONPointer.__len__ child = S (JSONPointer.__len__ P) /\
    JSONPointerItems.getitem child (-1) = Some key /\
    exists parent,
      JSONPointerItems.getslice child (slice.mk None (Some (-1)%Z)) = Return parent /\
      JSONPointer.__eq__ parent P = true.
Proof.
  exists (JSONPointer.mk (JSONPointer._keys P ++ [key])).
  split; [reflexivity|].
  split.
  { unfold JSONPointer.__len__. simpl. rewrite length_app. simpl. lia. }
  split.
  { unfold JSONPointerItems.getitem. simpl. apply slice_item_last. }
  unfold JSONPointerItems.getslice. rewrite init_of_keys. simpl.
  eexists. split; [reflexivity|].
  unfold JSONPointer.__eq__. simpl. rewrite slice_init.
  apply bool_decide_eq_true. reflexivity.
Qed.

(** ** The [json-pointer] format *)

Lemma rfc6901_iff_str (s : string) :
  rfc6901 s <-> exists P, JSONPointer.__str__ P = s.
Proof.
  split.
  - intros H. apply rfc6901_tokens in H as (toks & Htoks & ->).
    exists (JSONPointer.mk (map JSONPointer.unescape toks)).
    rewrite str_render_tokens, map_escape_unescape by exact Htoks. reflexivity.
  - intros [[keys] <-]. apply rfc6901_tokens.
    exists (map JSONPointer.escape keys). split; [|apply str_render_tokens].
    apply List.Forall_forall. intros t Ht. apply in_map_iff in Ht as [k [<- _]].
    apply token_escape.
Qed.

(** X9.  The [json-pointer] format never raises: for every string it
    returns a result, which is valid exactly when the string is the
    string form of some pointer; a valid result carries no error, an
    invalid one the constructor's message for that string. *)
Theorem JSONPointerFormat_evaluate_spec (instance : string) :
  exists r,
    JSONPointerFormat.evaluate instance = Return r /\
    (format_valid r = true <-> exists P, JSONPointer.__str__ P = instance) /\
    format_error r
    = if format_valid r then None
      else Some (JSONPointerItems.init_error instance).
Proof.
  unfold JSONPointerFormat.evaluate, JSONPointer.__init__. simpl.
  destruct (re.fullmatch JSONPointer._json_pointer_re instance) eqn:Hm; simpl.
  - eexists. split; [reflexivity|]. simpl. split; [|reflexivity].
    split; [intros _|reflexivity]. apply rfc6901_iff_str. exact Hm.
  - eexists. split; [reflexivity|]. simpl. split; [|reflexivity].
    split; [discriminate|]. intros HP. apply rfc6901_iff_str in HP.
    unfold rfc6901 in HP. congruence.
Qed.

(** ** The output formatter on arbitrary trees *)

(** X10.  [_flatten_annotations] on any tree, valid or not: an entry
    is produced exactly for the annotated scopes that can be reached
    from the root through scopes without a true error, the scope
    itself included; nothing at or below a scope with such an error is
    reported. *)
Theorem flatten_annotations_visible (root : Scope.t) (entry : JSON) :
  In entry (OutputFormatter._flatten_annotations root) <->
  exists s annotation,
    visible root s /\ Scope.annotation s = Some annotation /\
    entry = annotation_entry s annotation.
Proof.
  split.
  - revert entry. induction root as [root IH] using Scope_tree_ind. intros entry.
    rewrite flatten_annotations_unfold.
    destruct (truthy (Scope.error root)) eqn:He; simpl; [contradiction|].
    rewrite in_app_iff. intros [Hown|Hbelow].
    + destruct (Scope.annotation root) as [a|] eqn:Ha; [|contradiction].
      destruct Hown as [<-|[]]. exists root, a.
      split; [apply visible_here; exact He|]. split; [exact Ha|reflexivity].
    + apply in_flat_map in Hbelow as (c & Hc & Hin).
      rewrite List.Forall_forall in IH.
      destruct (IH c Hc entry Hin) as (s & a & Hvis & Ha & ->).
      exists s, a. split; [|split; [exact Ha|reflexivity]].
      eapply visible_child; [exact He|exact Hc|exact Hvis].
  - intros (s & a & Hvis & Ha & ->).
    induction Hvis as [s He|s c d He Hc Hvis IH];
      rewrite flatten_annotations_unfold, He; simpl; apply in_app_iff.
    + left. rewrite Ha. left. reflexivity.
    + right. apply in_flat_map. exists c. split; [exact Hc|]. apply IH. exact Ha.
Qed.

(** X11.  [flag] and [basic] report the same validity; [basic] has
    exactly one of the keys [annotations] and [errors], the second one
    when the scope is invalid, and then the list of errors is not
    empty and begins with the entry of the scope itself. *)
Theorem OutputFormatter_flag_basic (scope : Scope.t) :
  dict_get (OutputFormatter.flag scope) "valid"
  = dict_get (OutputFormatter.basic scope) "valid"
  /\
  (dict_has (OutputFormatter.basic scope) "annotations" = Scope.valid scope)
  /\
  (dict_has (OutputFormatter.basic scope) "errors" = negb (Scope.valid scope))
  /\
  (OutputFormatter._flatten_errors scope = [] <-> Scope.valid scope = true)
  /\
  (Scope.valid scope = false ->
   exists rest,
     dict_get (OutputFormatter.basic scope) "errors"
     = Some (JArray (error_entry scope :: rest))).
Proof.
  unfold OutputFormatter.flag, OutputFormatter.basic, dict_has.
  rewrite flatten_errors_unfold.
  destruct (Scope.valid scope); simpl.
  - repeat split; try reflexivity. discriminate.
  - repeat split; try reflexivity; try discriminate.
    intros _. eexists. reflexivity.
Qed.

(** ** [$ref] and [$dynamicRef] *)

(** X12.  A [$dynamicRef] whose target is not marked dynamic is a
    [$ref]: built from the same schema and value, the two keywords
    fail to resolve on the same inputs with the same exception, resolve
    to the same schema, and whenever the [$dynamicRef] was not marked
    dynamic, or no scope of the stack yields a matching anchor, they
    hand the instance to the same schema in the same scope. *)
Theorem DynamicRefKeyword_static_is_RefKeyword (lib : uri.library)
    (catalogue : Catalogue) (parentschema : JSONSchema) (value : string)
    (kw : DynamicRefKeyword.t) :
  DynamicRefKeyword.__init__ parentschema value = Return kw ->
  let rk := RefKeyword.__init__ parentschema value in
  (forall e, DynamicRefKeyword.resolve lib kw catalogue = Raise e <->
             RefKeyword.resolve lib rk catalogue = Raise e)
  /\
  (forall kw',
      DynamicRefKeyword.resolve lib kw catalogue = Return kw' ->
      exists rk',
        RefKeyword.resolve lib rk catalogue = Return rk' /\
        RefKeyword.refschema rk' = DynamicRefKeyword.refschema kw' /\
        forall instance scope,
          (DynamicRefKeyword.dynamic kw' = false \/
           forall s', s' ∈ stack scope ->
                      yields catalogue (DynamicRefKeyword.fragment kw') s' = None) ->
          DynamicRefKeyword.evaluate kw' catalogue instance scope
          = RefKeyword.evaluate rk' instance scope).
Proof.
  intros Hinit rk. subst rk.
  unfold DynamicRefKeyword.__init__ in Hinit.
  destruct (uri.fragment value) as [f|]; [|discriminate].
  destruct (str.contains f "/"); [discriminate|]. injection Hinit as <-.
  unfold DynamicRefKeyword.resolve, RefKeyword.resolve, RefKeyword.__init__. simpl.
  set (target :=
         if negb (uri.has_absolute_base lib value)
         then match base_uri parentschema with
              | Some base => Return (uri.resolve lib value base)
              | None => Raise JSONSchemaError
              end
         else Return value).
  destruct target as [u|e0]; simpl.
  - destruct (get_schema catalogue u) as [found|e1]; simpl.
    + split; [intros e; split; discriminate|].
      intros kw' [= <-]. eexists. split; [reflexivity|]. split; [reflexivity|].
      intros instance scope Hcase.
      unfold DynamicRefKeyword.evaluate, RefKeyword.evaluate. simpl.
      destruct (DynamicRefKeyword.anchor_matches found f); [|reflexivity].
      destruct Hcase as [Hd|Hnone]; [discriminate|]. simpl in Hnone.
      rewrite walk_walk_stack, (walk_stack_no_match _ _ _ Hnone). reflexivity.
    + split; [intros e; split; intros [= <-]; reflexivity|]. discriminate.
  - split; [intros e; split; intros [= <-]; reflexivity|]. discriminate.
Qed.

Lemma DynamicRefKeyword_static_is_RefKeyword_witness :
  exists kw,
    DynamicRefKeyword.__init__ schema_a_items "#node" = Return kw /\
    forall e, DynamicRefKeyword.resolve example_library kw example_catalogue = Raise e <->
              RefKeyword.resolve example_library
                (RefKeyword.__init__ schema_a_items "#node") example_catalogue = Raise e.
Proof.
  eexists. split; [reflexivity|].
  apply (DynamicRefKeyword_static_is_RefKeyword example_library example_catalogue
           schema_a_items "#node" _ eq_refl).
Defined.

(** ** [$vocabulary], continued *)

Lemma VocabularyKeyword_init_unfold (lib : uri.library) (catalogue : Catalogue)
    (metaschema : Metaschema) (value : list (string * bool)) :
  VocabularyKeyword.__init__ lib catalogue (MetaSchema metaschema) value
  = match dict_get value (vocabulary_uri (core_vocabulary metaschema)) with
    | Some true =>
        if existsb (failing_entry lib catalogue) value
        then Raise JSONSchemaError
        else Return (MetaSchema
                       (set_kwclasses metaschema
                          (kwclasses metaschema ∪ opted_in_kwclasses catalogue value)))
    | _ => Raise JSONSchemaError
    end.
Proof.
  unfold VocabularyKeyword.__init__. rewrite VocabularyKeyword_loop_spec.
  destruct (dict_get value _) as [[|]|]; simpl; try reflexivity.
  destruct (existsb _ value); reflexivity.
Qed.

Lemma dict_get_In {A : Type} (d : list (string * A)) (k : string) (v : A) :
  dict_get d k = Some v -> In (k, v) d.
Proof.
  induction d as [|[k' v'] d IH]; simpl; [discriminate|].
  destruct (String.eqb_spec k' k) as [->|_].
  - intros [= ->]. left. reflexivity.
  - intros H. right. apply IH. exact H.
Qed.

Lemma dict_get_Permutation {A : Type} (d d' : list (string * A)) (k : string) :
  Permutation d d' -> NoDup (map fst d) -> dict_get d k = dict_get d' k.
Proof.
  intros Hp Hnd.
  assert (Hnd' : NoDup (map fst d')).
  { rewrite <- (Permutation_map fst Hp). exact Hnd. }
  destruct (dict_get d k) as [v|] eqn:E.
  - symmetry. apply dict_get_NoDup; [exact Hnd'|].
    eapply Permutation_in; [exact Hp|]. apply dict_get_In. exact E.
  - destruct (dict_get d' k) as [v'|] eqn:E'; [|reflexivity].
    apply dict_get_In in E'.
    apply (Permutation_in _ (Permutation_sym Hp)) in E'.
    rewrite (dict_get_NoDup _ _ _ Hnd E') in E. discriminate.
Qed.

Lemma existsb_Permutation {A : Type} (f : A -> bool) (l l' : list A) :
  Permutation l l' -> existsb f l = existsb f l'.
Proof.
  induction 1 as [|x l l' _ IH|x y l|l l' l'' _ IH1 _ IH2]; simpl.
  - reflexivity.
  - rewrite IH. reflexivity.
  - destruct (f x), (f y); reflexivity.
  - congruence.
Qed.

Lemma opted_in_kwclasses_Permutation (catalogue : Catalogue)
    (value value' : list (string * bool)) :
  Permutation value value' ->
  opted_in_kwclasses catalogue value = opted_in_kwclasses catalogue value'.
Proof.
  induction 1 as [|x l l' _ IH|x y l|l l' l'' _ IH1 _ IH2].
  - reflexivity.
  - rewrite !opted_in_kwclasses_cons, IH. reflexivity.
  - rewrite !opted_in_kwclasses_cons.
    destruct (vocabularies catalogue !! x.1), (vocabularies catalogue !! y.1);
      try reflexivity.
    set_solver.
  - congruence.
Qed.

(** X13.  The order of the entries of the [$vocabulary] map does not
    matter: listing the same entries in another order gives the same
    outcome, the same exception or the same keyword-class set. *)
Theorem VocabularyKeyword_init_permutation (lib : uri.library) (catalogue : Catalogue)
    (parentschema : parent_schema) (value value' : list (string * bool)) :
  Permutation value value' ->
  NoDup (map fst value) ->
  VocabularyKeyword.__init__ lib catalogue parentschema value
  = VocabularyKeyword.__init__ lib catalogue parentschema value'.
Proof.
  intros Hp Hnd. destruct parentschema as [schema|metaschema]; [reflexivity|].
  rewrite !VocabularyKeyword_init_unfold.
  rewrite (dict_get_Permutation _ _ _ Hp Hnd),
    (existsb_Permutation _ _ _ Hp), (opted_in_kwclasses_Permutation _ _ _ Hp).
  reflexivity.
Qed.

Lemma VocabularyKeyword_init_permutation_witness :
  VocabularyKeyword.__init__ example_library vocab_catalogue
    (MetaSchema example_metaschema) example_vocabulary_value
  = VocabularyKeyword.__init__ example_library vocab_catalogue
      (MetaSchema example_metaschema) (rev example_vocabulary_value).
Proof.
  apply (VocabularyKeyword_init_permutation example_library vocab_catalogue
           (MetaSchema example_metaschema)
           example_vocabulary_value (rev example_vocabulary_value)).
  - apply Permutation_rev.
  - apply (bool_decide_eq_true_1 (NoDup (map fst example_vocabulary_value))).
    vm_compute. reflexivity.
Defined.

Lemma opted_in_kwclasses_lookup (catalogue : Catalogue) (value : list (string * bool))
    (u : URI) (r : bool) (vocabulary : Vocabulary) :
  In (u, r) value -> vocabularies catalogue !! u = Some vocabulary ->
  vocabulary_kwclasses vocabulary ⊆ opted_in_kwclasses catalogue value.
Proof.
  induction value as [|entry value IH]; intros Hin Hl; [contradiction|].
  rewrite opted_in_kwclasses_cons. destruct Hin as [->|Hin].
  - simpl. rewrite Hl. set_solver.
  - specialize (IH Hin Hl).
    destruct (vocabularies catalogue !! entry.1); set_solver.
Qed.

(** X14.  When constructing [$vocabulary] on a metaschema succeeds, the
    result is again a metaschema with the same core vocabulary; its
    keyword-class set contains the old one, every recognised vocabulary
    of the map is fully included, the catalogue knows the core
    vocabulary, and constructing the keyword once more changes
    nothing. *)
Theorem VocabularyKeyword_init_grows (lib : uri.library) (catalogue : Catalogue)
    (metaschema : Metaschema) (value : list (string * bool))
    (parentschema' : parent_schema) :
  VocabularyKeyword.__init__ lib catalogue (MetaSchema metaschema) value
  = Return parentschema' ->
  exists metaschema',
    parentschema' = MetaSchema metaschema' /\
    core_vocabulary metaschema' = core_vocabulary metaschema /\
    kwclasses metaschema ⊆ kwclasses metaschema' /\
    (forall u r vocabulary,
        In (u, r) value -> vocabularies catalogue !! u = Some vocabulary ->
        vocabulary_kwclasses vocabulary ⊆ kwclasses metaschema') /\
    is_Some (vocabularies catalogue !! vocabulary_uri (core_vocabulary metaschema)) /\
    VocabularyKeyword.__init__ lib catalogue parentschema' value = Return parentschema'.
Proof.
  rewrite VocabularyKeyword_init_unfold.
  destruct (dict_get value _) as [[|]|] eqn:Hcore; try discriminate.
  destruct (existsb (failing_entry lib catalogue) value) eqn:Hfail; [discriminate|].
  intros [= <-]. eexists. split; [reflexivity|].
  split; [reflexivity|]. split; [simpl; set_solver|].
  split.
  { intros u r vocabulary Hin Hl. simpl.
    pose proof (opted_in_kwclasses_lookup _ _ _ _ _ Hin Hl). set_solver. }
  split.
  { apply dict_get_In in Hcore.
    destruct (vocabularies catalogue !! vocabulary_uri (core_vocabulary metaschema))
      as [v|] eqn:Hl; [eauto|].
    exfalso. apply not_true_iff_false in Hfail. apply Hfail.
    apply existsb_failing_entry. eexists _, _. split; [exact Hcore|]. right. auto. }
  rewrite VocabularyKeyword_init_unfold.
  cbn [set_kwclasses core_vocabulary kwclasses metaschema_schema].
  rewrite Hcore, Hfail.
  do 2 f_equal. unfold set_kwclasses. simpl. f_equal. set_solver.
Qed.

Lemma VocabularyKeyword_init_grows_witness :
  exists parentschema',
    VocabularyKeyword.__init__ example_library vocab_catalogue
      (MetaSchema example_metaschema) example_vocabulary_value = Return parentschema' /\
    VocabularyKeyword.__init__ example_library vocab_catalogue
      parentschema' example_vocabulary_value = Return parentschema'.
Proof.
  eexists. split.
  - rewrite VocabularyKeyword_init_unfold. reflexivity.
  - destruct (VocabularyKeyword_init_grows example_library vocab_catalogue
                example_metaschema example_vocabulary_value _
                (eq_trans (VocabularyKeyword_init_unfold _ _ _ _) eq_refl))
      as (m' & _ & _ & _ & _ & _ & H).
    exact H.
Defined.

(** ** [const] and [enum] *)

(** X15.  [const] is [enum] with one member: the two keywords give the
    same verdict on every instance.  The verdict of [const] does not
    change when the instance and the keyword value change places. *)
Theorem ConstKeyword_is_singleton_EnumKeyword (self_value instance : JSON) :
  valid (ConstKeyword.evaluate self_value instance)
  = valid (EnumKeyword.evaluate [self_value] instance)
  /\
  valid (ConstKeyword.evaluate self_value instance)
  = valid (ConstKeyword.evaluate instance self_value).
Proof.
  unfold ConstKeyword.evaluate, EnumKeyword.evaluate. simpl.
  rewrite orb_false_r. split; apply json_eqb_sym.
Qed.

(** X16.  [enum]: the empty list rejects every instance; a list in two
    parts accepts what either part accepts; the order of the members
    does not matter; an instance is accepted exactly when [const] with
    some member accepts it; and every well-formed member of the list is
    itself accepted. *)
Theorem EnumKeyword_evaluate_spec (values1 values2 : list JSON) (instance : JSON) :
  valid (EnumKeyword.evaluate [] instance) = false
  /\
  valid (EnumKeyword.evaluate (values1 ++ values2) instance)
  = valid (EnumKeyword.evaluate values1 instance)
    || valid (EnumKeyword.evaluate values2 instance)
  /\
  (Permutation values1 values2 ->
   valid (EnumKeyword.evaluate values1 instance)
   = valid (EnumKeyword.evaluate values2 instance))
  /\
  (valid (EnumKeyword.evaluate values1 instance) = true <->
   exists member, In member values1 /\
                  valid (ConstKeyword.evaluate member instance) = true)
  /\
  (In instance values1 -> well_formed instance = true ->
   valid (EnumKeyword.evaluate values1 instance) = true).
Proof.
  unfold EnumKeyword.evaluate, ConstKeyword.evaluate. simpl.
  split; [reflexivity|]. split; [apply existsb_app|].
  split; [apply existsb_Permutation|].
  split.
  - rewrite existsb_exists. split; intros (member & Hin & Heq); exists member;
      (split; [exact Hin|]); rewrite json_eqb_sym; exact Heq.
  - intros Hin Hwf. apply existsb_exists. exists instance.
    split; [exact Hin|]. apply json_eqb_refl. exact Hwf.
Qed.

(** ** [type], continued *)

(** X17.  The verdict of [type] depends only on which names the value
    lists, not on their order or on repetitions, and a list in two
    parts accepts what either part accepts. *)
Theorem TypeKeyword_evaluate_set (value1 value2 : list string) (instance : JSON) :
  ((forall t, In t value1 <-> In t value2) ->
   valid (TypeKeyword.evaluate value1 instance)
   = valid (TypeKeyword.evaluate value2 instance))
  /\
  valid (TypeKeyword.evaluate (value1 ++ value2) instance)
  = valid (TypeKeyword.evaluate value1 instance)
    || valid (TypeKeyword.evaluate value2 instance).
Proof.
  unfold TypeKeyword.evaluate. simpl. split; [|apply existsb_app].
  intros Hsame. apply eq_true_iff_eq. rewrite !existsb_exists.
  split; intros (t & Hin & Ht); exists t; (split; [apply Hsame; exact Hin|exact Ht]).
Qed.

(** ** The size keywords *)


(** ** [required] and [dependentRequired] *)

Lemma dict_has_true {A : Type} (d : list (string * A)) (key : string) :
  dict_has d key = true <-> In key (map fst d).
Proof.
  unfold dict_has. induction d as [|[k v] d IH]; simpl; [split; [discriminate|tauto]|].
  destruct (String.eqb_spec k key) as [->|Hne].
  - split; auto.
  - rewrite IH. split; [auto|]. intros [H|H]; [contradiction|exact H].
Qed.

Lemma missing_In (self_value : list string) (instance : list (string * JSON))
    (name : string) :
  In name (RequiredKeyword.missing self_value instance) <->
  In name self_value /\ dict_has instance name = false.
Proof.
  unfold RequiredKeyword.missing. rewrite filter_In, negb_true_iff. reflexivity.
Qed.

Lemma required_valid_iff (self_value : list string) (instance : list (string * JSON)) :
  valid (RequiredKeyword.evaluate self_value instance) = true <->
  forall name, In name self_value -> dict_has instance name = true.
Proof.
  unfold RequiredKeyword.evaluate. simpl. rewrite Nat.eqb_eq. split.
  - intros Hlen name Hin.
    destruct (dict_has instance name) eqn:Hh; [reflexivity|].
    assert (Hm : In name (RequiredKeyword.missing self_value instance))
      by (apply missing_In; auto).
    destruct (RequiredKeyword.missing self_value instance); [contradiction|discriminate].
  - intros Hall.
    destruct (RequiredKeyword.missing self_value instance) as [|name rest] eqn:Hm;
      [reflexivity|].
    assert (Hin : In name (RequiredKeyword.missing self_value instance))
      by (rewrite Hm; left; reflexivity).
    apply missing_In in Hin as [Hin Hh]. rewrite (Hall name Hin) in Hh. discriminate.
Qed.

(** X19.  [required] passes exactly when every listed name is a key of
    the object; the names shown in the error are the listed names that
    are not keys, in the order of the list; a list in two parts passes
    when both parts pass; and an object that passes still passes with
    more keys. *)
Theorem RequiredKeyword_evaluate_spec (self_value more : list string)
    (instance instance' : list (string * JSON)) :
  (valid (RequiredKeyword.evaluate self_value instance) = true <->
   forall name, In name self_value -> In name (map fst instance))
  /\
  (forall name,
      In name (RequiredKeyword.missing self_value instance) <->
      In name self_value /\ ~ In name (map fst instance))
  /\
  sublist (RequiredKeyword.missing self_value instance) self_value
  /\
  valid (RequiredKeyword.evaluate (self_value ++ more) instance)
  = valid (RequiredKeyword.evaluate self_value instance)
    && valid (RequiredKeyword.evaluate more instance)
  /\
  ((forall name, In name (map fst instance) -> In name (map fst instance')) ->
   valid (RequiredKeyword.evaluate self_value instance) = true ->
   valid (RequiredKeyword.evaluate self_value instance') = true).
Proof.
  split; [|split; [|split; [|split]]].
  - rewrite required_valid_iff. split; intros H name Hin; apply dict_has_true; auto.
  - intros name. rewrite missing_In, <- dict_has_true.
    destruct (dict_has instance name); split; intros [? ?]; split; auto; congruence.
  - unfold RequiredKeyword.missing.
    induction self_value as [|name l IH]; simpl; [constructor|].
    destruct (negb (dict_has instance name)); [apply sublist_skip|apply sublist_cons];
      exact IH.
  - apply eq_true_iff_eq. rewrite andb_true_iff, !required_valid_iff. split.
    + intros H. split; intros name Hin; apply H; apply in_or_app; auto.
    + intros [H1 H2] name Hin. apply in_app_or in Hin as [Hin|Hin]; auto.
  - intros Hmore. rewrite !required_valid_iff. intros H name Hin.
    apply dict_has_true, Hmore, dict_has_true, H, Hin.
Qed.

Lemma dict_set_not_nil {A : Type} (d : list (string * A)) (key : string) (v : A) :
  dict_set d key v <> [].
Proof. destruct d as [|[k w] d]; simpl; [|destruct (String.eqb k key)]; discriminate. Qed.

Lemma dependent_loop_not_nil (items : list (string * list string))
    (instance : list (string * JSON)) :
  forall missing, missing <> [] ->
                  DependentRequiredKeyword.loop items instance missing <> [].
Proof.
  induction items as [|[name dependents] items IH]; intros missing Hne; simpl;
    [exact Hne|].
  destruct (dict_has instance name); [|apply IH; exact Hne].
  destruct (List.filter _ dependents); apply IH; [exact Hne|apply dict_set_not_nil].
Qed.

Lemma dependent_loop_nil (items : list (string * list string))
    (instance : list (string * JSON)) :
  DependentRequiredKeyword.loop items instance [] = [] <->
  forall name dependents,
    In (name, dependents) items -> dict_has instance name = true ->
    valid (RequiredKeyword.evaluate dependents instance) = true.
Proof.
  induction items as [|[name dependents] items IH]; simpl.
  { split; [intros _ ? ? []|reflexivity]. }
  destruct (dict_has instance name) eqn:Hh.
  - fold (RequiredKeyword.missing dependents instance).
    destruct (RequiredKeyword.missing dependents instance) as [|dep rest] eqn:Hm.
    + rewrite IH. split.
      * intros H n d [[= <- <-]|Hin] Hn; [|apply (H n d Hin Hn)].
        unfold RequiredKeyword.evaluate. simpl. rewrite Hm. reflexivity.
      * intros H n d Hin. apply H. right. exact Hin.
    + split.
      * intros H. exfalso. revert H. apply dependent_loop_not_nil. discriminate.
      * intros H. specialize (H name dependents (or_introl eq_refl) Hh).
        unfold RequiredKeyword.evaluate in H. simpl in H. rewrite Hm in H. discriminate.
  - rewrite IH. split.
    + intros H n d [[= <- <-]|Hin] Hn; [congruence|apply (H n d Hin Hn)].
    + intros H n d Hin. apply H. right. exact Hin.
Qed.

(** X20.  [dependentRequired] passes exactly when, for every entry
    whose name is a key of the object, [required] with the dependents
    of that entry passes; an object with none of the names passes; and
    an entry whose name is a key acts as [required]. *)
Theorem DependentRequiredKeyword_evaluate_spec
    (self_value : list (string * list string)) (instance : list (string * JSON)) :
  (valid (DependentRequiredKeyword.evaluate self_value instance) = true <->
   forall name dependents,
     In (name, dependents) self_value -> In name (map fst instance) ->
     valid (RequiredKeyword.evaluate dependents instance) = true)
  /\
  ((forall name, In name (map fst self_value) -> ~ In name (map fst instance)) ->
   valid (DependentRequiredKeyword.evaluate self_value instance) = true)
  /\
  (forall name dependents,
      In name (map fst instance) ->
      valid (DependentRequiredKeyword.evaluate [(name, dependents)] instance)
      = valid (RequiredKeyword.evaluate dependents instance)).
Proof.
  assert (Hiff : valid (DependentRequiredKeyword.evaluate self_value instance) = true <->
                 forall name dependents,
                   In (name, dependents) self_value -> In name (map fst instance) ->
                   valid (RequiredKeyword.evaluate dependents instance) = true).
  { unfold DependentRequiredKeyword.evaluate. simpl. rewrite Nat.eqb_eq.
    rewrite length_zero_iff_nil, dependent_loop_nil.
    split; intros H n d Hin Hn; apply (H n d Hin); apply dict_has_true; exact Hn. }
  split; [exact Hiff|]. split.
  - intros Hnone. apply Hiff. intros name dependents Hin Hkey. exfalso.
    apply (Hnone name); [|exact Hkey].
    apply in_map_iff. exists (name, dependents). auto.
  - intros name dependents Hkey. apply dict_has_true in Hkey.
    unfold DependentRequiredKeyword.evaluate, RequiredKeyword.evaluate. simpl.
    rewrite Hkey. fold (RequiredKeyword.missing dependents instance).
    destruct (RequiredKeyword.missing dependents instance); reflexivity.
Qed.

(** ** [uniqueItems], continued *)

Lemma unique_valid_iff (instance : list JSON) :
  valid (UniqueItemsKeyword.evaluate true instance) = true <-> all_distinct instance.
Proof.
  unfold UniqueItemsKeyword.evaluate. simpl.
  rewrite Nat.eqb_eq, <- fresh_items_distinct, <- uniquify_full. simpl.
  rewrite Nat.add_0_r. split; intros H; symmetry; exact H.
Qed.

Lemma all_distinct_cons (x : JSON) (l : list JSON) :
  all_distinct (x :: l) <->
  (forall y, In y l -> json_eqb x y = false) /\ all_distinct l.
Proof.
  unfold all_distinct. split.
  - intros H. split.
    + intros y Hy. apply list_elem_of_In, list_elem_of_lookup in Hy as [j Hj].
      apply (H 0%nat (S j) x y); [lia|reflexivity|exact Hj].
    + intros i j a b Hij Ha Hb. apply (H (S i) (S j) a b); [lia|exact Ha|exact Hb].
  - intros [Hx Hl] [|i] [|j] a b Hij Ha Hb; simpl in Ha, Hb.
    + contradiction.
    + injection Ha as <-. apply Hx.
      apply list_elem_of_In, list_elem_of_lookup. eauto.
    + injection Hb as <-. rewrite json_eqb_sym. apply Hx.
      apply list_elem_of_In, list_elem_of_lookup. eauto.
    + apply (Hl i j a b); [lia|exact Ha|exact Hb].
Qed.

Lemma all_distinct_Permutation (l l' : list JSON) :
  Permutation l l' -> all_distinct l <-> all_distinct l'.
Proof.
  induction 1 as [|x l l' Hp IH|x y l|l l' l'' _ IH1 _ IH2].
  - reflexivity.
  - rewrite !all_distinct_cons, IH. split; intros [Hx Hl]; (split; [|exact Hl]);
      intros y Hy; apply Hx.
    + eapply Permutation_in; [apply Permutation_sym; exact Hp|exact Hy].
    + eapply Permutation_in; [exact Hp|exact Hy].
  - rewrite !all_distinct_cons. split; intros (Hy & Hx & Hl).
    + split; [|split; [|exact Hl]].
      * intros z [<-|Hz]; [|apply Hx; exact Hz].
        rewrite json_eqb_sym. apply Hy. left. reflexivity.
      * intros z Hz. apply Hy. right. exact Hz.
    + split; [|split; [|exact Hl]].
      * intros z [<-|Hz]; [|apply Hx; exact Hz].
        rewrite json_eqb_sym. apply Hy. left. reflexivity.
      * intros z Hz. apply Hy. right. exact Hz.
  - rewrite IH1. exact IH2.
Qed.

Lemma all_distinct_sublist (l l' : list JSON) :
  sublist l' l -> all_distinct l -> all_distinct l'.
Proof.
  induction 1 as [|x l1 l2 Hs IH|x l1 l2 Hs IH].
  - auto.
  - rewrite !all_distinct_cons. intros [Hx Hl]. split; [|apply IH; exact Hl].
    intros y Hy. apply Hx. apply list_elem_of_In.
    eapply elem_of_sublist; [|exact Hs]. apply list_elem_of_In. exact Hy.
  - rewrite all_distinct_cons. intros [_ Hl]. apply IH. exact Hl.
Qed.

(** X21.  The verdict of [uniqueItems] does not depend on the order of
    the array; an array that passes still passes after elements are
    removed; and an array in two parts can only pass when both parts
    pass. *)
Theorem UniqueItemsKeyword_evaluate_structure (self_value : bool)
    (instance instance' : list JSON) :
  (Permutation instance instance' ->
   valid (UniqueItemsKeyword.evaluate self_value instance)
   = valid (UniqueItemsKeyword.evaluate self_value instance'))
  /\
  (sublist instance' instance ->
   valid (UniqueItemsKeyword.evaluate self_value instance) = true ->
   valid (UniqueItemsKeyword.evaluate self_value instance') = true)
  /\
  (valid (UniqueItemsKeyword.evaluate self_value (instance ++ instance')) = true ->
   valid (UniqueItemsKeyword.evaluate self_value instance) = true /\
   valid (UniqueItemsKeyword.evaluate self_value instance') = true).
Proof.
  destruct self_value; [|repeat split; reflexivity].
  split; [|split].
  - intros Hp. apply eq_true_iff_eq. rewrite !unique_valid_iff.
    apply all_distinct_Permutation. exact Hp.
  - rewrite !unique_valid_iff. apply all_distinct_sublist.
  - rewrite !unique_valid_iff. intros H. split.
    + eapply all_distinct_sublist; [|exact H]. apply sublist_inserts_r. reflexivity.
    + eapply all_distinct_sublist; [|exact H]. apply sublist_inserts_l. reflexivity.
Qed.

(** ** [$schema] and [$id], continued *)

(** X22.  Constructing [$schema] succeeds exactly when the value is a
    well-formed, normalized URI with a scheme, a fragment being
    allowed; it then sets the metaschema URI to the value and leaves
    the rest of the schema as it was.  Whatever goes wrong surfaces as
    [JSONSchemaError], never as [URIError]. *)
Theorem SchemaKeyword_init_spec (lib : uri.library) (parentschema : JSONSchema)
    (value : string) :
  (raised (SchemaKeyword.__init__ lib parentschema value) = false <->
   uri.well_formed lib value = true /\ uri.has_scheme lib value = true /\
   uri.is_normalized lib value = true)
  /\
  (forall e, SchemaKeyword.__init__ lib parentschema value = Raise e ->
             e = JSONSchemaError)
  /\
  (forall parentschema',
      SchemaKeyword.__init__ lib parentschema value = Return parentschema' ->
      metaschema_uri parentschema' = Some value /\
      schema_uri parentschema' = schema_uri parentschema /\
      base_uri parentschema' = base_uri parentschema /\
      keywords parentschema' = keywords parentschema).
Proof.
  unfold SchemaKeyword.__init__, uri.validate.
  destruct (uri.well_formed lib value), (uri.has_scheme lib value),
    (uri.is_normalized lib value); simpl;
    (split; [split; [try discriminate; auto|intros (? & ? & ?); congruence]|]);
    (split; [intros e; congruence|]);
    intros parentschema'; try discriminate;
    intros [= <-]; repeat split.
Qed.

(** X23.  Constructing [$id]: a value that fails validation, one with
    a fragment included, raises [URIError]; a valid relative value in a
    schema without a base URI raises [JSONSchemaError]; every other
    value succeeds, and the schema's URI becomes the value itself when
    it is absolute and the value resolved against the base URI when it
    is not.  The metaschema URI and the keywords are left as they
    were. *)
Theorem IdKeyword_init_spec (lib : uri.library) (parentschema : JSONSchema)
    (value : string) :
  (IdKeyword.__init__ lib parentschema value = Raise URIError <->
   raised (uri.validate lib false true false value) = true)
  /\
  (IdKeyword.__init__ lib parentschema value = Raise JSONSchemaError <->
   raised (uri.validate lib false true false value) = false /\
   uri.is_absolute lib value = false /\ base_uri parentschema = None)
  /\
  (forall e, IdKeyword.__init__ lib parentschema value = Raise e ->
             e = URIError \/ e = JSONSchemaError)
  /\
  (forall parentschema',
      IdKeyword.__init__ lib parentschema value = Return parentschema' ->
      uri.fragment value = None /\
      (uri.is_absolute lib value = true -> schema_uri parentschema' = Some value) /\
      (uri.is_absolute lib value = false ->
       exists base, base_uri parentschema = Some base /\
                    schema_uri parentschema' = Some (uri.resolve lib value base)) /\
      metaschema_uri parentschema' = metaschema_uri parentschema /\
      keywords parentschema' = keywords parentschema).
Proof.
  destruct (IdKeyword_init_cases lib parentschema value) as [Hbad Hgood].
  destruct (validate_cases lib false true false value) as [Hv|Hv].
  - destruct (Hgood Hv) as [Hfrag Hinit]. rewrite Hinit, Hv. simpl.
    destruct (uri.is_absolute lib value); [|destruct (base_uri parentschema) as [base|]].
    + split; [split; discriminate|]. split; [split; [discriminate|intros (_ & ? & _); discriminate]|].
      split; [discriminate|]. intros s' [= <-]. simpl.
      split; [exact Hfrag|]. split; [reflexivity|]. split; [discriminate|]. split; reflexivity.
    + split; [split; discriminate|]. split; [split; [discriminate|intros (_ & _ & ?); discriminate]|].
      split; [discriminate|]. intros s' [= <-]. simpl.
      split; [exact Hfrag|]. split; [discriminate|].
      split; [intros _; exists base; split; reflexivity|]. split; reflexivity.
    + split; [split; discriminate|]. split; [split; [auto|reflexivity]|].
      split; [intros e [= <-]; right; reflexivity|]. discriminate.
  - rewrite (Hbad Hv), Hv. simpl.
    split; [split; reflexivity|]. split; [split; [discriminate|intros (? & _); discriminate]|].
    split; [intros e [= <-]; left; reflexivity|]. discriminate.
Qed.

(** ** The theorems above at concrete inputs *)

Lemma OutputFormatter_flag_basic_witness :
  Scope.valid example_failing_tree = false /\
  exists rest,
    dict_get (OutputFormatter.basic example_failing_tree) "errors"
    = Some (JArray (error_entry example_failing_tree :: rest)).
Proof.
  split; [reflexivity|].
  destruct (OutputFormatter_flag_basic example_failing_tree) as (_ & _ & _ & _ & H).
  apply H. reflexivity.
Defined.

Lemma EnumKeyword_evaluate_spec_witness :
  In (JString "a") [JInteger 1; JString "a"] /\
  well_formed (JString "a") = true /\
  valid (EnumKeyword.evaluate [JInteger 1; JString "a"] (JString "a")) = true.
Proof.
  destruct (EnumKeyword_evaluate_spec [JInteger 1; JString "a"] [] (JString "a"))
    as (_ & _ & _ & _ & H).
  assert (Hin : In (JString "a") [JInteger 1; JString "a"]) by (right; left; reflexivity).
  split; [exact Hin|]. split; [reflexivity|]. apply H; [exact Hin|reflexivity].
Defined.

Lemma TypeKeyword_evaluate_set_witness :
  valid (TypeKeyword.evaluate ["string"; "null"] JNull)
  = valid (TypeKeyword.evaluate ["null"; "string"; "null"] JNull).
Proof.
  destruct (TypeKeyword_evaluate_set ["string"; "null"] ["null"; "string"; "null"] JNull)
    as [H _].
  apply H. intros t. simpl. tauto.
Defined.


Lemma RequiredKeyword_evaluate_spec_witness :
  valid (RequiredKeyword.evaluate ["a"] [("a", JNull)]) = true /\
  valid (RequiredKeyword.evaluate ["a"] [("b", JNull); ("a", JNull)]) = true.
Proof.
  destruct (RequiredKeyword_evaluate_spec ["a"] [] [("a", JNull)]
              [("b", JNull); ("a", JNull)]) as (_ & _ & _ & _ & H).
  split; [reflexivity|]. apply H; [|reflexivity].
  intros name. simpl. tauto.
Defined.

Lemma DependentRequiredKeyword_evaluate_spec_witness :
  valid (DependentRequiredKeyword.evaluate [("card", ["address"])] [("name", JNull)])
  = true.
Proof.
  destruct (DependentRequiredKeyword_evaluate_spec [("card", ["address"])]
              [("name", JNull)]) as (_ & H & _).
  apply H. intros name [<-|[]] [Hn|[]]. discriminate.
Defined.

Lemma UniqueItemsKeyword_evaluate_structure_witness :
  valid (UniqueItemsKeyword.evaluate true [JInteger 1; JInteger 2])
  = valid (UniqueItemsKeyword.evaluate true [JInteger 2; JInteger 1]).
Proof.
  destruct (UniqueItemsKeyword_evaluate_structure true
              [JInteger 1; JInteger 2] [JInteger 2; JInteger 1]) as (H & _).
  apply H. apply perm_swap.
Defined.
